(** * object3d_detector_gpu: range-adaptive clustering and human classification

    A shallow embedding of [object3d_detector_gpu.cpp].  The detector works
    on IEEE 754 numbers: point coordinates and Eigen vectors are binary32
    ([float]), thresholds, ranges and SVM values are binary64 ([double]).
    Both are modelled with the executable reference semantics of
    [SpecFloat] (round to nearest even), so that every comparison and every
    rounding of the C++ code is the one evaluated here.  External
    capabilities (the CUDA clustering engine, PCL's bounding box, centroid,
    covariance and PCA routines, libsvm's predictors) are interfaces
    ([Class]es) the model is parametric in.  C arrays and raw buffers are
    total maps from index to cell; an access whose index is computed from
    data is guarded, and a run that would leave the bounds (or cast a value
    that does not fit) is undefined, here [None]. *)

From Stdlib Require Import ZArith.
From Stdlib Require Import Floats.SpecFloat.
From stdpp Require Import base tactics option list.

Open Scope Z_scope.

(** ** IEEE 754 layer *)

(** [float] is binary32 and [double] binary64; both are read as
    [spec_float] values, the format being that of the operation applied. *)
Abbreviation float := spec_float (only parsing).
Abbreviation double := spec_float (only parsing).

Module Binary32.
Definition prec := 24.
Definition emax := 128.
Definition add : float -> float -> float := SFadd prec emax.
Definition sub : float -> float -> float := SFsub prec emax.
Definition mul : float -> float -> float := SFmul prec emax.
Definition div : float -> float -> float := SFdiv prec emax.
Definition of_Z (n : Z) : float := binary_normalize prec emax n 0 false.
(** Conversion from another format (rounds to nearest even). *)
Definition of_double (v : double) : float :=
  match v with
  | S754_finite s m e => binary_round prec emax s m e
  | _ => v
  end.
End Binary32.

Module Binary64.
Definition prec := 53.
Definition emax := 1024.
Definition add : double -> double -> double := SFadd prec emax.
Definition sub : double -> double -> double := SFsub prec emax.
Definition mul : double -> double -> double := SFmul prec emax.
Definition div : double -> double -> double := SFdiv prec emax.
Definition of_Z (n : Z) : double := binary_normalize prec emax n 0 false.
(** Promotion of a [float] operand (exact: it only renormalises). *)
Definition of_float (v : float) : double :=
  match v with
  | S754_finite s m e => binary_round prec emax s m e
  | _ => v
  end.
(** The decimal literal [n / 10^k], correctly rounded. *)
Definition literal (n : Z) (k : nat) : double :=
  div (of_Z n) (of_Z (10 ^ Z.of_nat k)).
End Binary64.

Module F := Binary32.
Module D := Binary64.

(** Arithmetic on literals is evaluated by [vm_compute] only. *)
Arguments Binary32.add : simpl never.
Arguments Binary32.sub : simpl never.
Arguments Binary32.mul : simpl never.
Arguments Binary32.div : simpl never.
Arguments Binary32.of_Z : simpl never.
Arguments Binary32.of_double : simpl never.
Arguments Binary64.add : simpl never.
Arguments Binary64.sub : simpl never.
Arguments Binary64.mul : simpl never.
Arguments Binary64.div : simpl never.
Arguments Binary64.of_Z : simpl never.
Arguments Binary64.of_float : simpl never.
Arguments Binary64.literal : simpl never.

Definition fabs : spec_float -> spec_float := SFabs.

(** C++ comparison operators; all are false when an operand is NaN. *)
Definition lt (a b : spec_float) : bool := SFltb a b.
Definition le (a b : spec_float) : bool := SFleb a b.
Definition gt (a b : spec_float) : bool := SFltb b a.
Definition ge (a b : spec_float) : bool := SFleb b a.

Definition is_nan (v : spec_float) : bool :=
  match v with S754_nan => true | _ => false end.

Definition is_zero (v : spec_float) : bool :=
  match v with S754_zero _ => true | _ => false end.

Definition is_finite (v : spec_float) : bool :=
  match v with S754_zero _ | S754_finite _ _ _ => true | _ => false end.

(** <float.h> *)
Definition DBL_EPSILON : double := S754_finite false (2 ^ 52) (-104).
Definition FLT_MAX : float := S754_finite false (2 ^ 24 - 1) 104.

Definition zero : spec_float := S754_zero false.

(** [v] with its sign bit replaced. *)
Definition with_sign (s : bool) (v : spec_float) : spec_float :=
  match v with
  | S754_zero _ => S754_zero s
  | S754_infinity _ => S754_infinity s
  | S754_finite _ m e => S754_finite s m e
  | S754_nan => S754_nan
  end.

(** The integer part of a number (rounding toward zero). *)
Definition truncate (v : spec_float) : option Z :=
  match v with
  | S754_zero _ => Some 0
  | S754_finite s m e =>
      let a := match e with
               | Zneg k => Z.shiftr (Zpos m) (Zpos k)
               | _ => Z.shiftl (Zpos m) e
               end in
      Some (if s then - a else a)
  | _ => None
  end.

(** [(int)v] for a double [v]: its integer part; undefined (here [None])
    when [v] is not a number or its integer part does not fit in a 32-bit
    [int]. *)
Definition double_to_int (v : double) : option Z :=
  match truncate v with
  | Some k => if (- 2 ^ 31 <=? k) && (k <? 2 ^ 31) then Some k else None
  | None => None
  end.

(** Mathematical floor of a float, used to state properties only. *)
Definition floor (v : spec_float) : option Z :=
  match v with
  | S754_zero _ => Some 0
  | S754_finite s m e =>
      Some (match e with
            | Zneg k => if s then - ((Zpos m + 2 ^ Zpos k - 1) / 2 ^ Zpos k)
                        else Zpos m / 2 ^ Zpos k
            | _ => if s then - (Zpos m * 2 ^ e) else Zpos m * 2 ^ e
            end)
  | _ => None
  end.

(** [int] and [size_t] conversions. *)
Definition to_int (n : Z) : Z := (n + 2 ^ 31) mod 2 ^ 32 - 2 ^ 31.
Definition to_size_t (n : Z) : Z := n mod 2 ^ 64.

(** ** Points, vectors and features *)

Record PointXYZ := { pt_x : float; pt_y : float; pt_z : float }.

Abbreviation PointCloud := (list PointXYZ) (only parsing).

(** Eigen::Vector4f, components [0..3]. *)
Record Vector4f := { v0 : float; v1 : float; v2 : float; v3 : float }.

(** Eigen::Matrix3f, entries (row, column). *)
Record Matrix3f := {
  m00 : float; m01 : float; m02 : float;
  m10 : float; m11 : float; m12 : float;
  m20 : float; m21 : float; m22 : float }.

Module Feature.
Record t := {
  (* for visualization *)
  centroid : Vector4f;
  min : Vector4f;
  max : Vector4f;
  (* for classification *)
  number_points : Z;
  min_distance : double;
  covariance_3d : Matrix3f;
  moment_3d : Matrix3f;
  slice : list double }.
End Feature.

Definition FEATURE_SIZE : nat := 34.

(** ** Region partitioner ([extractCluster], first part) *)

Definition nested_regions_ : nat := 14.
Definition zone_ : list Z := [2;3;3;3;3;3;3;2;3;3;3;3;3;3].

(** Remove ground and ceiling: the indices kept, then [copyPointCloud]. *)
Definition in_z_band (z_limit_min_ z_limit_max_ : double) (p : PointXYZ) : bool :=
  ge (D.of_float (pt_z p)) z_limit_min_ && le (D.of_float (pt_z p)) z_limit_max_.

Definition remove_ground_ceiling (z_limit_min_ z_limit_max_ : double)
    (pc : PointCloud) : PointCloud :=
  filter (fun p => in_z_band z_limit_min_ z_limit_max_ p = true) pc.

(** [double d2 = x*x + y*y + z*z]: evaluated in [float], then widened. *)
Definition d2 (p : PointXYZ) : double :=
  D.of_float
    (F.add (F.add (F.mul (pt_x p) (pt_x p)) (F.mul (pt_y p) (pt_y p)))
           (F.mul (pt_z p) (pt_z p))).

(** The inner [for j] loop, entered at band [j] with the running [range]. *)
Fixpoint find_region (d : double) (range : double) (zones : list Z) (j : nat)
    : option nat :=
  match zones with
  | [] => None
  | w :: zones' =>
      let upto := D.add range (D.of_Z w) in
      if gt d (D.mul range range) && le d (D.mul upto upto)
      then Some j
      else find_region d upto zones' (S j)
  end.

Definition region_of (p : PointXYZ) : option nat :=
  find_region (d2 p) zero zone_ 0.

(** [indices_array[j].push_back(i)] *)
Definition push_back_at (arr : list (list nat)) (j i : nat) : list (list nat) :=
  alter (fun v => v ++ [i]) j arr.

(** The outer [for i] loop, from point number [i] on. *)
Fixpoint divide_from (pts : PointCloud) (i : nat) (arr : list (list nat))
    : list (list nat) :=
  match pts with
  | [] => arr
  | p :: pts' =>
      divide_from pts' (S i)
        (match region_of p with
         | Some j => push_back_at arr j i
         | None => arr
         end)
  end.

Definition divide_regions (pc : PointCloud) : list (list nat) :=
  divide_from pc 0 (replicate nested_regions_ []).

(** Point number [i] is listed in [indices_array[b]]. *)
Definition in_region (arr : list (list nat)) (b i : nat) : Prop :=
  exists v, arr !! b = Some v /\ i ∈ v.

(** The running [range] on entry to band [b], and its square. *)
Definition range_before (b : nat) : double :=
  fold_left (fun r w => D.add r (D.of_Z w)) (take b zone_) zero.

Definition band_lower (b : nat) : double :=
  D.mul (range_before b) (range_before b).

Definition band_upper (b : nat) : double :=
  D.mul (range_before (S b)) (range_before (S b)).

Definition in_band (d : double) (b : nat) : bool :=
  gt d (band_lower b) && le d (band_upper b).

(** [range] after [k] bands of [zones] have been skipped. *)
Definition running (range : double) (zones : list Z) (k : nat) : double :=
  fold_left (fun r w => D.add r (D.of_Z w)) (take k zones) range.

Definition band_test (d range : double) (w : Z) : bool :=
  let upto := D.add range (D.of_Z w) in
  gt d (D.mul range range) && le d (D.mul upto upto).

(** ** External capabilities *)

(** [extractClusterParam_t] of cudaCluster.h (CUDA-PCL); the header is not
    part of the source tree, its voxel sizes are [float] fields. *)
Record extractClusterParam_t := {
  minClusterSize : Z;
  maxClusterSize : Z;
  voxelX : float;
  voxelY : float;
  voxelZ : float;
  countThreshold : Z }.

(** libsvm's [struct svm_node]. *)
Record svm_node := { index : Z; value : double }.

(** PCL: bounding box, centroid, PCA projection of a cloud onto its own
    eigen-basis ([setInputCloud] then [project]), normalised covariance. *)
Class Pcl := {
  getMinMax3D : PointCloud -> Vector4f * Vector4f;
  compute3DCentroid : PointCloud -> Vector4f;
  pca_project : PointCloud -> PointCloud;
  computeCovarianceMatrixNormalized : PointCloud -> Vector4f -> Matrix3f }.

(** [cudaExtractCluster::extract] after [set (ecp)]: the contents of
    [outputEC] (4 floats per point) and [indexEC] on return. *)
Class CudaCluster := {
  cudaec_extract : extractClusterParam_t -> PointCloud ->
                   (nat -> float) * (nat -> nat) }.

(** libsvm over a loaded model; a node array is passed as its cells up to
    and including the end marker. *)
Class Libsvm (svm_model : Type) := {
  svm_check_probability_model : svm_model -> Z;
  svm_predict_probability : svm_model -> list svm_node -> list double;
  svm_predict : svm_model -> list svm_node -> double }.

(** ** The detector object *)

(** The ROS parameters read by the constructor. *)
Record ros_params := {
  param_z_limit_min : double;
  param_z_limit_max : double;
  param_cluster_size_min : Z;
  param_cluster_size_max : Z;
  param_human_probability : double;
  param_human_size_limit : bool }.

Definition default_params : ros_params := {|
  param_z_limit_min := D.literal (-8) 1;
  param_z_limit_max := D.literal 12 1;
  param_cluster_size_min := 5;
  param_cluster_size_max := 30000;
  param_human_probability := D.literal 7 1;
  param_human_size_limit := false |}.

(** What the [fscanf] calls read from an opened range file: the values
    assigned by the ["%lf %lf"] scan (at most two), and the rows for which
    the ["%d %lf %lf"] scan returned 3, in file order. *)
Record range_file := {
  scanned_bounds : list double;
  scanned_rows : list (Z * double * double) }.

(** Contents of the members the constructor does not initialise. *)
Record indeterminate := {
  ind_is_probability_model : bool;
  ind_svm_node : nat -> svm_node;
  ind_svm_scale_range : nat -> double * double;
  ind_svm_x_lower : double;
  ind_svm_x_upper : double }.

Record Object3dDetector {svm_model : Type} := {
  z_limit_min_ : double;
  z_limit_max_ : double;
  cluster_size_min_ : Z;
  cluster_size_max_ : Z;
  human_probability_ : double;
  human_size_limit_ : bool;
  svm_node_ : nat -> svm_node;
  svm_model_ : option svm_model;
  use_svm_model_ : bool;
  is_probability_model_ : bool;
  svm_scale_range_ : nat -> double * double;
  svm_x_lower_ : double;
  svm_x_upper_ : double }.
Arguments Object3dDetector : clear implicits.

(** [a[i] = v] on a total map. *)
Definition store {A} (a : nat -> A) (i : nat) (v : A) : nat -> A :=
  fun j => if decide (j = i) then v else a j.

(** The [while (fscanf (...) == 3)] loop. *)
Fixpoint load_ranges (rows : list (Z * double * double))
    (tbl : nat -> double * double) : option (nat -> double * double) :=
  match rows with
  | [] => Some tbl
  | (idx, fmin, fmax) :: rows' =>
      if (1 <=? idx) && (idx <=? Z.of_nat FEATURE_SIZE)
      then load_ranges rows' (store tbl (Z.to_nat (idx - 1)) (fmin, fmax))
      else None
  end.

Section Constructor.
Context {svm_model : Type} `{!Libsvm svm_model}.

(** [Object3dDetector::Object3dDetector ()]: [loaded] is the result of
    [svm_load_model] and [opened] that of [fopen] on the range file. *)
Definition Object3dDetector_new (params : ros_params)
    (loaded : option svm_model) (opened : option range_file)
    (mem : indeterminate) : option (Object3dDetector svm_model) :=
  let make model use_svm is_prob tbl lower upper := {|
    z_limit_min_ := param_z_limit_min params;
    z_limit_max_ := param_z_limit_max params;
    cluster_size_min_ := param_cluster_size_min params;
    cluster_size_max_ := param_cluster_size_max params;
    human_probability_ := param_human_probability params;
    human_size_limit_ := param_human_size_limit params;
    svm_node_ := ind_svm_node mem;
    svm_model_ := model;
    use_svm_model_ := use_svm;
    is_probability_model_ := is_prob;
    svm_scale_range_ := tbl;
    svm_x_lower_ := lower;
    svm_x_upper_ := upper |} in
  match loaded with
  | None =>
      Some (make None false (ind_is_probability_model mem)
              (ind_svm_scale_range mem) (ind_svm_x_lower mem)
              (ind_svm_x_upper mem))
  | Some model =>
      let is_prob := negb (svm_check_probability_model model =? 0) in
      match opened with
      | Some file =>
          let lower := match scanned_bounds file with
                       | a :: _ => a
                       | [] => ind_svm_x_lower mem
                       end in
          let upper := match scanned_bounds file with
                       | _ :: b :: _ => b
                       | _ => ind_svm_x_upper mem
                       end in
          tbl ← load_ranges (scanned_rows file) (ind_svm_scale_range mem);
          Some (make (Some model) true is_prob tbl lower upper)
      | None =>
          Some (make (Some model) false is_prob (ind_svm_scale_range mem)
                  (ind_svm_x_lower mem) (ind_svm_x_upper mem))
      end
  end.
End Constructor.

(** ** Feature extraction *)

Definition Vector4f_zero : Vector4f :=
  {| v0 := zero; v1 := zero; v2 := zero; v3 := zero |}.

Definition Matrix3f_zero : Matrix3f := {|
  m00 := zero; m01 := zero; m02 := zero;
  m10 := zero; m11 := zero; m12 := zero;
  m20 := zero; m21 := zero; m22 := zero |}.

Definition computeMomentOfInertiaTensorNormalized (pc : PointCloud) : Matrix3f :=
  let acc := fold_left (fun (m : Matrix3f) (p : PointXYZ) =>
    let x := pt_x p in let y := pt_y p in let z := pt_z p in
    {| m00 := F.add (m00 m) (F.add (F.mul y y) (F.mul z z));
       m01 := F.sub (m01 m) (F.mul x y);
       m02 := F.sub (m02 m) (F.mul x z);
       m10 := m10 m;
       m11 := F.add (m11 m) (F.add (F.mul x x) (F.mul z z));
       m12 := F.sub (m12 m) (F.mul y z);
       m20 := m20 m;
       m21 := m21 m;
       m22 := F.add (m22 m) (F.add (F.mul x x) (F.mul y y)) |})
    pc Matrix3f_zero in
  {| m00 := m00 acc; m01 := m01 acc; m02 := m02 acc;
     m10 := m01 acc; m11 := m11 acc; m12 := m12 acc;
     m20 := m02 acc; m21 := m12 acc; m22 := m22 acc |}.

(** The [f2] loop: running minimum of the squared distances. *)
Definition min_step (m : double) (p : PointXYZ) : double :=
  if gt m (d2 p) then d2 p else m.

Definition min_distance_of (pc : PointCloud) : double :=
  fold_left min_step pc (D.of_float FLT_MAX).

Section Slice.
Context `{!Pcl}.

(** [j = std::min ((n-1), (int)((z - pc_min[2]) / itv))], stored in an
    [unsigned int] and used to index [blocks[n]]. *)
Definition slice_index (n : Z) (zmin : float) (itv : double) (p : PointXYZ)
    : option nat :=
  q ← double_to_int (D.div (D.of_float (F.sub (pt_z p) zmin)) itv);
  let j := Z.min (n - 1) q mod 2 ^ 32 in
  if j <? n then Some (Z.to_nat j) else None.

Fixpoint fill_blocks (n : Z) (zmin : float) (itv : double) (pts : PointCloud)
    (blocks : list PointCloud) : option (list PointCloud) :=
  match pts with
  | [] => Some blocks
  | p :: pts' =>
      j ← slice_index n zmin itv p;
      fill_blocks n zmin itv pts' (alter (fun blk => blk ++ [p]) j blocks)
  end.

(** Bounding box of one block, or zero vectors below 3 points. *)
Definition block_box (blk : PointCloud) : Vector4f * Vector4f :=
  if (2 <? Z.of_nat (length blk))
  then getMinMax3D (pca_project blk)
  else (Vector4f_zero, Vector4f_zero).

(** The last loop of [computeSlice], from block number [i] on; [slice]
    has 20 cells. *)
Fixpoint slice_blocks (blocks : list PointCloud) (i : nat)
    (slice : list double) : option (list double) :=
  match blocks with
  | [] => Some slice
  | blk :: blocks' =>
      let '(block_min, block_max) := block_box blk in
      if (i * 2 + 1 <? length slice)%nat
      then slice_blocks blocks' (S i)
             (<[(i * 2 + 1)%nat := D.of_float (F.sub (v1 block_max) (v1 block_min))]>
             (<[(i * 2)%nat := D.of_float (F.sub (v0 block_max) (v0 block_min))]>
                slice))
      else None
  end.

(** [double itv = (pc_max[2] - pc_min[2]) / n] *)
Definition slice_interval (pc_min pc_max : Vector4f) (n : Z) : double :=
  D.of_float (F.div (F.sub (v2 pc_max) (v2 pc_min)) (F.of_Z n)).

Definition computeSlice (pc : PointCloud) (n : Z) : option (list double) :=
  let slice := replicate 20 zero in
  let '(pc_min, pc_max) := getMinMax3D pc in
  let itv := slice_interval pc_min pc_max n in
  if gt itv (D.of_Z 0)
  then
    blocks ← fill_blocks n (v2 pc_min) itv pc (replicate (Z.to_nat n) []);
    slice_blocks blocks 0 slice
  else Some slice.
End Slice.

Section Detector.
Context {svm_model : Type} `{!Pcl, !CudaCluster, !Libsvm svm_model}.
Implicit Types (this : Object3dDetector svm_model) (pc : PointCloud).

(** [extractFeature (pc, f, min, max, centroid)]; [f] is an in/out
    argument. *)
Definition extractFeature this pc (f : Feature.t)
    (min max centroid : Vector4f) : option Feature.t :=
  if use_svm_model_ this then
    let pc_projected := pca_project pc in
    slice ← computeSlice pc 10;
    Some {|
      Feature.centroid := centroid;
      Feature.min := min;
      Feature.max := max;
      Feature.number_points := to_int (Z.of_nat (length pc));
      Feature.min_distance := min_distance_of pc;
      Feature.covariance_3d :=
        computeCovarianceMatrixNormalized pc_projected centroid;
      Feature.moment_3d := computeMomentOfInertiaTensorNormalized pc_projected;
      Feature.slice := slice |}
  else
    Some {|
      Feature.centroid := centroid;
      Feature.min := min;
      Feature.max := max;
      Feature.number_points := Feature.number_points f;
      Feature.min_distance := Feature.min_distance f;
      Feature.covariance_3d := Feature.covariance_3d f;
      Feature.moment_3d := Feature.moment_3d f;
      Feature.slice := Feature.slice f |}.

(** *** Cluster orchestrator ([extractCluster], second part) *)

(** Bounding-box extents [max[k] - min[k]], as compared with the
    [double] limits. *)
Definition extent_x (min max : Vector4f) : double := D.of_float (F.sub (v0 max) (v0 min)).
Definition extent_y (min max : Vector4f) : double := D.of_float (F.sub (v1 max) (v1 min)).
Definition extent_z (min max : Vector4f) : double := D.of_float (F.sub (v2 max) (v2 min)).

Definition size_limit_exceeded (min max : Vector4f) : bool :=
  lt (extent_x min max) (D.literal 2 1) || gt (extent_x min max) (D.literal 10 1) ||
  lt (extent_y min max) (D.literal 2 1) || gt (extent_y min max) (D.literal 10 1) ||
  lt (extent_z min max) (D.literal 5 1) || gt (extent_z min max) (D.literal 20 1).

(** One returned group: [None] when the size limitation skips it
    ([continue]), otherwise the outcome of [extractFeature] on it;
    [f] is the uninitialised local [Feature f]. *)
Definition process_cluster this (f : Feature.t) (cluster : PointCloud)
    : option (option Feature.t) :=
  let '(min, max) := getMinMax3D cluster in
  let centroid := compute3DCentroid cluster in
  if human_size_limit_ this && size_limit_exceeded min max
  then None
  else Some (extractFeature this cluster f min max centroid).

(** Offset of group [i] in [outputEC]: the sizes of groups [1..i-1]. *)
Definition outoff (indexEC : nat -> nat) (i : nat) : nat :=
  fold_left (fun off w => (off + indexEC w)%nat) (seq 1 (i - 1)) 0%nat.

Definition cluster_points (outputEC : nat -> float) (indexEC : nat -> nat)
    (i : nat) : PointCloud :=
  (fun k => {| pt_x := outputEC ((outoff indexEC i + k) * 4 + 0)%nat;
               pt_y := outputEC ((outoff indexEC i + k) * 4 + 1)%nat;
               pt_z := outputEC ((outoff indexEC i + k) * 4 + 2)%nat |})
  <$> seq 0 (indexEC i).

(** The [for (i = 1; i <= indexEC[0]; i++)] loop over group numbers. *)
Fixpoint collect_clusters this (f : Feature.t) (outputEC : nat -> float)
    (indexEC : nat -> nat) (groups : list nat) (features_ : list Feature.t)
    : option (list Feature.t) :=
  match groups with
  | [] => Some features_
  | i :: groups' =>
      match process_cluster this f (cluster_points outputEC indexEC i) with
      | None => collect_clusters this f outputEC indexEC groups' features_
      | Some extracted =>
          f' ← extracted;
          collect_clusters this f outputEC indexEC groups' (features_ ++ [f'])
      end
  end.

Definition copyPointCloud pc (indices : list nat) : PointCloud :=
  omap (fun i => pc !! i) indices.

Definition cluster_params this (tolerance : double) : extractClusterParam_t := {|
  minClusterSize := cluster_size_min_ this mod 2 ^ 32;
  maxClusterSize := cluster_size_max_ this mod 2 ^ 32;
  voxelX := F.of_double tolerance;
  voxelY := F.of_double tolerance;
  voxelZ := F.of_double tolerance;
  countThreshold := 0 |}.

(** One call of the clustering engine: band, parameters set, input. *)
Definition engine_call : Type := nat * extractClusterParam_t * PointCloud.

(** The clustering loop from band [i] on, with the running [tolerance]:
    the engine calls it makes, in order, and the resulting [features_]
    (undefined when a feature extraction is). *)
Fixpoint cluster_regions this (f : Feature.t) pc (regions : list (list nat))
    (i : nat) (tolerance : double) (features_ : list Feature.t)
    : list engine_call * option (list Feature.t) :=
  match regions with
  | [] => ([], Some features_)
  | indices :: regions' =>
      let tolerance := D.add tolerance (D.literal 1 1) in
      if Z.of_nat (length indices) >? to_size_t (cluster_size_min_ this)
      then
        let cloud_regionalized := copyPointCloud pc indices in
        let ecp := cluster_params this tolerance in
        let '(outputEC, indexEC) := cudaec_extract ecp cloud_regionalized in
        match collect_clusters this f outputEC indexEC
                (seq 1 (indexEC 0%nat)) features_ with
        | Some features_' =>
            let '(calls, r) :=
              cluster_regions this f pc regions' (S i) tolerance features_' in
            ((i, ecp, cloud_regionalized) :: calls, r)
        | None => ([(i, ecp, cloud_regionalized)], None)
        end
      else cluster_regions this f pc regions' (S i) tolerance features_
  end.

(** [extractCluster (pc)]: the engine calls and the new [features_]. *)
Definition extractCluster this (f : Feature.t) pc
    : list engine_call * option (list Feature.t) :=
  let pc := remove_ground_ceiling (z_limit_min_ this) (z_limit_max_ this) pc in
  cluster_regions this f pc (divide_regions pc) 0 zero [].

(** *** Normalisation and classification ([classify]) *)

(** [x[i].index = i + 1; x[i].value = v] *)
Definition set_node (x : nat -> svm_node) (i : nat) (v : double) : nat -> svm_node :=
  store x i {| index := Z.of_nat i + 1; value := v |}.

(** [f.slice[i]]; the array has 20 cells. *)
Definition slice_cell (f : Feature.t) (i : nat) : double :=
  default zero (Feature.slice f !! i).

(** [saveFeature (f, x)]: libsvm indices start at 1; the end marker keeps
    the value its cell had. *)
Definition saveFeature (f : Feature.t) (x : nat -> svm_node) : nat -> svm_node :=
  let x := set_node x 0 (D.of_Z (Feature.number_points f)) in
  let x := set_node x 1 (Feature.min_distance f) in
  let x := set_node x 2 (D.of_float (m00 (Feature.covariance_3d f))) in
  let x := set_node x 3 (D.of_float (m01 (Feature.covariance_3d f))) in
  let x := set_node x 4 (D.of_float (m02 (Feature.covariance_3d f))) in
  let x := set_node x 5 (D.of_float (m11 (Feature.covariance_3d f))) in
  let x := set_node x 6 (D.of_float (m12 (Feature.covariance_3d f))) in
  let x := set_node x 7 (D.of_float (m22 (Feature.covariance_3d f))) in
  let x := set_node x 8 (D.of_float (m00 (Feature.moment_3d f))) in
  let x := set_node x 9 (D.of_float (m01 (Feature.moment_3d f))) in
  let x := set_node x 10 (D.of_float (m02 (Feature.moment_3d f))) in
  let x := set_node x 11 (D.of_float (m11 (Feature.moment_3d f))) in
  let x := set_node x 12 (D.of_float (m12 (Feature.moment_3d f))) in
  let x := set_node x 13 (D.of_float (m22 (Feature.moment_3d f))) in
  let x := fold_left (fun x i => set_node x (i + 14) (slice_cell f i))
             (seq 0 20) x in
  store x FEATURE_SIZE {| index := -1; value := value (x FEATURE_SIZE) |}.

(** Denominator of the interpolation. *)
Definition scale_divisor (range : double * double) : double :=
  D.sub range.2 range.1.

(** Body of the [// scale data] loop for one attribute. *)
Definition scale_value (x_lower x_upper : double) (range : double * double)
    (v : double) : double :=
  if lt (fabs (D.sub range.1 range.2)) DBL_EPSILON then v
  else if lt (fabs (D.sub v range.1)) DBL_EPSILON then x_lower
  else if lt (fabs (D.sub v range.2)) DBL_EPSILON then x_upper
  else D.add x_lower
         (D.div (D.mul (D.sub x_upper x_lower) (D.sub v range.1))
                (scale_divisor range)).

Definition scale_data this (x : nat -> svm_node) : nat -> svm_node :=
  fold_left (fun x i =>
    store x i {| index := index (x i);
                 value := scale_value (svm_x_lower_ this) (svm_x_upper_ this)
                            (svm_scale_range_ this i) (value (x i)) |})
    (seq 0 FEATURE_SIZE) x.

Definition node_array (x : nat -> svm_node) : list svm_node :=
  x <$> seq 0 (S FEATURE_SIZE).

(** Whether the loop body reaches the marker code for [it] ([true]) or
    leaves by [continue] ([false]). *)
Definition accepts this (it : Feature.t) : option bool :=
  if use_svm_model_ this then
    model ← svm_model_ this;
    let x := scale_data this (saveFeature it (svm_node_ this)) in
    if is_probability_model_ this then
      p ← svm_predict_probability model (node_array x) !! 0%nat;
      Some (negb (lt p (human_probability_ this)))
    else
      Some (SFeqb (svm_predict model (node_array x)) (D.of_Z 1))
  else Some true.

Definition Point : Type := double * double * double.

(** A LINE_LIST marker: its id and its 24 points. *)
Record Marker := { marker_id : Z; marker_points : list Point }.

Definition box_lines (min max : Vector4f) : list Point :=
  let hx := D.of_float (v0 max) in let hy := D.of_float (v1 max) in
  let hz := D.of_float (v2 max) in let lx := D.of_float (v0 min) in
  let ly := D.of_float (v1 min) in let lz := D.of_float (v2 min) in
  [ (hx,hy,hz); (lx,hy,hz); (hx,hy,hz); (hx,ly,hz); (hx,hy,hz); (hx,hy,lz);
    (lx,ly,lz); (hx,ly,lz); (lx,ly,lz); (lx,hy,lz); (lx,ly,lz); (lx,ly,hz);
    (lx,hy,hz); (lx,hy,lz); (lx,hy,hz); (lx,ly,hz); (hx,ly,hz); (hx,ly,lz);
    (hx,ly,hz); (lx,ly,hz); (hx,hy,lz); (lx,hy,lz); (hx,hy,lz); (hx,ly,lz) ].

Definition position (c : Vector4f) : Point :=
  (D.of_float (v0 c), D.of_float (v1 c), D.of_float (v2 c)).

(** The three message bodies assembled by [classify]. *)
Record Detections := {
  markers : list Marker;
  measurements : list Point;
  people : list Point }.

(** The loop over [features_], from the feature at position [k] on. *)
Fixpoint classify_from this (features_ : list Feature.t) (k : nat)
    (out : Detections) : option Detections :=
  match features_ with
  | [] => Some out
  | it :: rest =>
      ok ← accepts this it;
      if ok : bool then
        let marker := {|
          marker_id := Z.of_nat k;
          marker_points := box_lines (Feature.min it) (Feature.max it) |} in
        classify_from this rest (S k) {|
          markers := markers out ++ [marker];
          measurements := measurements out ++ [position (Feature.centroid it)];
          people := people out ++ [position (Feature.centroid it)] |}
      else classify_from this rest (S k) out
  end.

(** A message is published only when it carries at least one entry. *)
Definition published {A} (entries : list A) : option (list A) :=
  match entries with [] => None | _ => Some entries end.

(** What one frame sends on the three publishers. *)
Record Publications := {
  marker_array_pub_ : option (list Marker);
  measurements_pub_ : option (list Point);
  people_pub_ : option (list Point) }.

Definition classify this (features_ : list Feature.t) : option Publications :=
  out ← classify_from this features_ 0
          {| markers := []; measurements := []; people := [] |};
  Some {| marker_array_pub_ := published (markers out);
          measurements_pub_ := published (measurements out);
          people_pub_ := published (people out) |}.

(** [pointCloudCallback]: [extractCluster] then [classify]. *)
Definition pointCloudCallback this (f : Feature.t) pc : option Publications :=
  features_ ← (extractCluster this f pc).2;
  classify this features_.
End Detector.

(** ** Vocabulary of the statements *)

Definition origin : PointXYZ := {| pt_x := zero; pt_y := zero; pt_z := zero |}.

(** The cases of the feature normaliser, in the words of the
    specification: a constant attribute, a value within epsilon of a
    bound, and the linear interpolation. *)
Definition degenerate (range : double * double) : bool :=
  lt (fabs (D.sub range.1 range.2)) DBL_EPSILON.

Definition within_epsilon (v bound : double) : bool :=
  lt (fabs (D.sub v bound)) DBL_EPSILON.

Definition interpolate (t_lo t_hi : double) (range : double * double)
    (v : double) : double :=
  D.add t_lo (D.div (D.mul (D.sub t_hi t_lo) (D.sub v range.1))
                    (D.sub range.2 range.1)).

(** The size limitation in the words of the specification: every extent
    within its interval, in metres. *)
Definition within (lo hi v : double) : bool := le lo v && le v hi.

Definition human_sized (ex ey ez : double) : bool :=
  within (D.literal 2 1) (D.literal 10 1) ex &&
  within (D.literal 2 1) (D.literal 10 1) ey &&
  within (D.literal 5 1) (D.literal 20 1) ez.

(** A [float] extent given in decimal, as compared by the size limitation. *)
Definition extent_literal (n : Z) (k : nat) : double :=
  D.of_float (F.of_double (D.literal n k)).

(** What [extractFeature] leaves in [f] when only the visualisation
    fields are assigned. *)
Definition with_visualization (f : Feature.t) (min max centroid : Vector4f)
    : Feature.t := {|
  Feature.centroid := centroid;
  Feature.min := min;
  Feature.max := max;
  Feature.number_points := Feature.number_points f;
  Feature.min_distance := Feature.min_distance f;
  Feature.covariance_3d := Feature.covariance_3d f;
  Feature.moment_3d := Feature.moment_3d f;
  Feature.slice := Feature.slice f |}.

(** The tolerance of band [i]: the running sum after [i + 1] additions
    of 0.1, and the [float] nearest to 0.1 x (i + 1). *)
Definition tolerance_step (t : double) : double := D.add t (D.literal 1 1).

Definition tolerance_of_band (i : nat) : double :=
  Nat.iter (S i) tolerance_step zero.

Definition adaptive_tolerance (i : nat) : float :=
  F.of_double (D.mul (D.literal 1 1) (D.of_Z (Z.of_nat i + 1))).

Section Vocabulary.
Context {svm_model : Type} `{!Pcl, !CudaCluster}.
Implicit Types (this : Object3dDetector svm_model).

(** The groups decoded from the buffers returned by the engine. *)
Definition groups_of (buffers : (nat -> float) * (nat -> nat))
    : list PointCloud :=
  cluster_points buffers.1 buffers.2 <$> seq 1 (buffers.2 0%nat).

Definition passes_size_limit this (cluster : PointCloud) : bool :=
  negb (human_size_limit_ this &&
        size_limit_exceeded (getMinMax3D cluster).1 (getMinMax3D cluster).2).

(** The groups returned over a run that survive the size limitation, in
    processing order. *)
Definition surviving_clusters this (calls : list engine_call)
    : list PointCloud :=
  calls ≫= fun '(_, ecp, cloud) =>
    List.filter (passes_size_limit this) (groups_of (cudaec_extract ecp cloud)).

Definition model_free_feature (f : Feature.t) (cluster : PointCloud)
    : Feature.t :=
  with_visualization f (getMinMax3D cluster).1 (getMinMax3D cluster).2
    (compute3DCentroid cluster).

Definition marker_of (k : nat) (it : Feature.t) : Marker := {|
  marker_id := Z.of_nat k;
  marker_points := box_lines (Feature.min it) (Feature.max it) |}.
End Vocabulary.

Section SliceVocabulary.
Context `{!Pcl}.

(** The height of a point above [zmin], in units of the bin height. *)
Definition scaled_height (zmin : float) (itv : double) (p : PointXYZ)
    : double :=
  D.div (D.of_float (F.sub (pt_z p) zmin)) itv.

(** The bin of a point in the words of the specification:
    min (n - 1, floor ((z - zmin) / itv)). *)
Definition bin_of (n : Z) (zmin : float) (itv : double) (p : PointXYZ)
    : option Z :=
  k ← floor (scaled_height zmin itv p); Some (Z.min (n - 1) k).

(** A point that can be binned: its scaled height is not negative and
    its integer part fits in an [int]. *)
Definition binnable (zmin : float) (itv : double) (p : PointXYZ) : Prop :=
  le zero (scaled_height zmin itv p) = true /\
  is_Some (double_to_int (scaled_height zmin itv p)).

Definition bin_points (n : Z) (zmin : float) (itv : double)
    (pc : PointCloud) (i : nat) : PointCloud :=
  List.filter (fun p => bool_decide (bin_of n zmin itv p = Some (Z.of_nat i))) pc.

(** The two values a bin contributes: the extents of the bounding box
    of its PCA projection along the first two axes, or (0, 0) for a bin
    of 2 points or fewer. *)
Definition bin_extents (blk : PointCloud) : double * double :=
  if (2 <? Z.of_nat (length blk))
  then (D.of_float (F.sub (v0 (getMinMax3D (pca_project blk)).2)
                          (v0 (getMinMax3D (pca_project blk)).1)),
        D.of_float (F.sub (v1 (getMinMax3D (pca_project blk)).2)
                          (v1 (getMinMax3D (pca_project blk)).1)))
  else (zero, zero).
End SliceVocabulary.

(** ** Reference instances of the external capabilities

    Executable stand-ins following the documented contracts, used to run
    the model on concrete frames. *)

Module Reference.
Definition fmin (a b : float) : float := if lt b a then b else a.
Definition fmax (a b : float) : float := if lt a b then b else a.

(** pcl::getMinMax3D on a dense cloud: component-wise fold from
    [FLT_MAX] and [-FLT_MAX]. *)
Definition getMinMax3D (pc : PointCloud) : Vector4f * Vector4f :=
  fold_left (fun '(lo, hi) p =>
    ({| v0 := fmin (v0 lo) (pt_x p); v1 := fmin (v1 lo) (pt_y p);
        v2 := fmin (v2 lo) (pt_z p); v3 := v3 lo |},
     {| v0 := fmax (v0 hi) (pt_x p); v1 := fmax (v1 hi) (pt_y p);
        v2 := fmax (v2 hi) (pt_z p); v3 := v3 hi |}))
    pc
    ({| v0 := FLT_MAX; v1 := FLT_MAX; v2 := FLT_MAX; v3 := FLT_MAX |},
     {| v0 := SFopp FLT_MAX; v1 := SFopp FLT_MAX; v2 := SFopp FLT_MAX;
        v3 := SFopp FLT_MAX |}).

(** pcl::compute3DCentroid: mean of the coordinates, last component 1. *)
Definition compute3DCentroid (pc : PointCloud) : Vector4f :=
  let n := F.of_Z (Z.of_nat (length pc)) in
  let sum := fold_left (fun '(sx, sy, sz) p =>
               (F.add sx (pt_x p), F.add sy (pt_y p), F.add sz (pt_z p)))
               pc (zero, zero, zero) in
  {| v0 := F.div sum.1.1 n; v1 := F.div sum.1.2 n; v2 := F.div sum.2 n;
     v3 := F.of_Z 1 |}.

(** Projection on a basis already aligned with the axes. *)
Definition pca_project (pc : PointCloud) : PointCloud := pc.

Definition computeCovarianceMatrixNormalized (pc : PointCloud) (c : Vector4f)
    : Matrix3f :=
  let n := F.of_Z (Z.of_nat (length pc)) in
  let acc := fold_left (fun (m : Matrix3f) p =>
    let x := F.sub (pt_x p) (v0 c) in
    let y := F.sub (pt_y p) (v1 c) in
    let z := F.sub (pt_z p) (v2 c) in
    {| m00 := F.add (m00 m) (F.mul x x); m01 := F.add (m01 m) (F.mul x y);
       m02 := F.add (m02 m) (F.mul x z); m10 := m10 m;
       m11 := F.add (m11 m) (F.mul y y); m12 := F.add (m12 m) (F.mul y z);
       m20 := m20 m; m21 := m21 m; m22 := F.add (m22 m) (F.mul z z) |})
    pc Matrix3f_zero in
  {| m00 := F.div (m00 acc) n; m01 := F.div (m01 acc) n; m02 := F.div (m02 acc) n;
     m10 := F.div (m01 acc) n; m11 := F.div (m11 acc) n; m12 := F.div (m12 acc) n;
     m20 := F.div (m02 acc) n; m21 := F.div (m12 acc) n; m22 := F.div (m22 acc) n |}.

Definition pcl : Pcl :=
  Build_Pcl getMinMax3D compute3DCentroid pca_project
            computeCovarianceMatrixNormalized.

(** An engine that reports its whole input as one group when the size
    gate lets it through, and no group otherwise. *)
Definition cuda : CudaCluster := {|
  cudaec_extract ecp cloud :=
    let n := length cloud in
    let fits := (minClusterSize ecp <=? Z.of_nat n)
                    && (Z.of_nat n <=? maxClusterSize ecp) in
    (fun a => match cloud !! (a / 4)%nat with
              | Some p => match (a mod 4)%nat with
                          | 0%nat => pt_x p
                          | 1%nat => pt_y p
                          | 2%nat => pt_z p
                          | _ => F.of_Z 1
                          end
              | None => zero
              end,
     fun i => match i with
              | 0%nat => if fits then 1%nat else 0%nat
              | 1%nat => n
              | _ => 0%nat
              end) |}.

(** A model that answers every query with a fixed human probability and
    a fixed label. *)
Record model := { probability_capable : bool; human_score : double; label : double }.

Definition libsvm : Libsvm model := {|
  svm_check_probability_model m := if probability_capable m then 1 else 0;
  svm_predict_probability m _ :=
    [human_score m; D.sub (D.of_Z 1) (human_score m)];
  svm_predict m _ := label m |}.

(** A point given in decimetres on each axis. *)
Definition point_dm (x y z : Z) : PointXYZ := {|
  pt_x := F.of_double (D.literal x 1);
  pt_y := F.of_double (D.literal y 1);
  pt_z := F.of_double (D.literal z 1) |}.

Definition zero_feature : Feature.t := {|
  Feature.centroid := Vector4f_zero;
  Feature.min := Vector4f_zero;
  Feature.max := Vector4f_zero;
  Feature.number_points := 0;
  Feature.min_distance := zero;
  Feature.covariance_3d := Matrix3f_zero;
  Feature.moment_3d := Matrix3f_zero;
  Feature.slice := replicate 20 zero |}.

Definition zero_memory : indeterminate := {|
  ind_is_probability_model := false;
  ind_svm_node := fun _ => {| index := 0; value := zero |};
  ind_svm_scale_range := fun _ => (zero, zero);
  ind_svm_x_lower := zero;
  ind_svm_x_upper := zero |}.

(** A detector with a loaded model answering [score], ranges listed for
    the first two attributes only and targets (-1, 1). *)
Definition detector (use_svm prob size_limit : bool) (score : double)
    : Object3dDetector model := {|
  z_limit_min_ := param_z_limit_min default_params;
  z_limit_max_ := param_z_limit_max default_params;
  cluster_size_min_ := 1;
  cluster_size_max_ := param_cluster_size_max default_params;
  human_probability_ := param_human_probability default_params;
  human_size_limit_ := size_limit;
  svm_node_ := ind_svm_node zero_memory;
  svm_model_ := Some {| probability_capable := prob; human_score := score;
                        label := D.of_Z 1 |};
  use_svm_model_ := use_svm;
  is_probability_model_ := prob;
  svm_scale_range_ := fun i => match i with
                               | 0%nat => (zero, D.of_Z 100)
                               | 1%nat => (zero, D.of_Z 1600)
                               | _ => (zero, zero)
                               end;
  svm_x_lower_ := D.of_Z (-1);
  svm_x_upper_ := D.of_Z 1 |}.

(** Four points of an upright box 0.4 x 0.4 x 1.7 m, five metres ahead. *)
Definition person : PointCloud :=
  [point_dm 50 0 (-5); point_dm 54 4 12; point_dm 52 2 3; point_dm 51 1 8].
End Reference.

(** ** Further vocabulary *)

(** Frame positions, counted from [i], of the points of [pts] that the
    band walk assigns to band [b]. *)
Fixpoint positions_in_band (pts : PointCloud) (i b : nat) : list nat :=
  match pts with
  | [] => []
  | p :: pts' =>
      if bool_decide (region_of p = Some b)
      then i :: positions_in_band pts' (S i) b
      else positions_in_band pts' (S i) b
  end.

(** A value that is not negative: NaN, a zero, or a number with a clear
    sign bit. *)
Definition not_negative (v : spec_float) : bool :=
  match v with
  | S754_nan | S754_zero _ => true
  | S754_infinity s | S754_finite s _ _ => negb s
  end.

(** NaN or plus infinity. *)
Definition overflowed (v : spec_float) : bool :=
  match v with
  | S754_nan | S754_infinity false => true
  | _ => false
  end.

(** The corners of the bounding box: for each axis, whether the corner
    takes the coordinate of [max] ([true]) or of [min] ([false]). *)
Definition corner (min max : Vector4f) (c : bool * bool * bool) : Point :=
  (D.of_float (v0 (if c.1.1 then max else min)),
   D.of_float (v1 (if c.1.2 then max else min)),
   D.of_float (v2 (if c.2 then max else min))).

(** Two corners joined by an edge of the box differ on exactly one axis. *)
Definition is_edge (a b : bool * bool * bool) : bool :=
  match xorb a.1.1 b.1.1, xorb a.1.2 b.1.2, xorb a.2 b.2 with
  | true, false, false | false, true, false | false, false, true => true
  | _, _, _ => false
  end.

(** A LINE_LIST draws one segment per consecutive pair of points. *)
Fixpoint segments {A} (l : list A) : list (A * A) :=
  match l with
  | a :: b :: l' => (a, b) :: segments l'
  | _ => []
  end.

(** ** Frame-rate bookkeeping ([pointCloudCallback])

    The globals [frames], [start_time] and [reset]; [clock ()] readings
    are inputs. *)
Record fps_state := { frames : Z; start_time : Z; reset : bool }.

(** Static initialisation: [int frames; clock_t start_time; bool reset = true]. *)
Definition fps_initial : fps_state :=
  {| frames := 0; start_time := 0; reset := true |}.

(** The first line of the callback. *)
Definition fps_enter (print_fps_ : bool) (clock : Z) (s : fps_state) : fps_state :=
  if print_fps_ && reset s
  then {| frames := 0; start_time := clock; reset := false |}
  else s.

(** The last line of the callback: the new state and, when the rate is
    printed, the number of frames it is computed over. *)
Definition fps_leave (print_fps_ : bool) (s : fps_state)
    : fps_state * option Z :=
  if print_fps_
  then if frames s + 1 >? 10
       then ({| frames := frames s + 1; start_time := start_time s;
                reset := true |}, Some (frames s + 1))
       else ({| frames := frames s + 1; start_time := start_time s;
                reset := reset s |}, None)
  else (s, None).

(** The bookkeeping over a sequence of callbacks, one [clock ()] reading
    per callback: the final state and what each callback printed. *)
Fixpoint fps_run (print_fps_ : bool) (clocks : list Z) (s : fps_state)
    : fps_state * list (option Z) :=
  match clocks with
  | [] => (s, [])
  | clock :: clocks' =>
      let '(s', printed) := fps_leave print_fps_ (fps_enter print_fps_ clock s) in
      let '(s'', rest) := fps_run print_fps_ clocks' s' in
      (s'', printed :: rest)
  end.

(** The elements of a list with their positions, counted from [k]. *)
Fixpoint numbered_from {A} (k : nat) (l : list A) : list (nat * A) :=
  match l with
  | [] => []
  | a :: l' => (k, a) :: numbered_from (S k) l'
  end.

Section ClassifyVocabulary.
Context {svm_model : Type} `{!Libsvm svm_model}.

(** The features, with their positions in [features_], for which the
    loop of [classify] reaches the marker code. *)
Definition accepted_features (this : Object3dDetector svm_model)
    (k : nat) (features_ : list Feature.t) : list (nat * Feature.t) :=
  List.filter (fun e => bool_decide (accepts this e.2 = Some true))
    (numbered_from k features_).
End ClassifyVocabulary.

(** The bounds a range file gives for attribute [i] (counted from 0): those
    of the last of its rows that names index [i + 1], when there is one. *)
Definition listed_range (rows : list (Z * double * double)) (i : nat)
    : option (double * double) :=
  (fun r => (r.1.2, r.2))
    <$> last (List.filter (fun r => bool_decide (r.1.1 = Z.of_nat i + 1)) rows).

(** A row index that addresses a cell of [svm_scale_range_]. *)
Definition row_in_table (r : Z * double * double) : Prop :=
  1 <= r.1.1 <= Z.of_nat FEATURE_SIZE.

(** The point stored in cells [4 k .. 4 k + 2] of the engine's output. *)
Definition output_point (outputEC : nat -> float) (k : nat) : PointXYZ := {|
  pt_x := outputEC (k * 4 + 0)%nat;
  pt_y := outputEC (k * 4 + 1)%nat;
  pt_z := outputEC (k * 4 + 2)%nat |}.

(** No message on any of the three publishers. *)
Definition silent : Publications := {|
  marker_array_pub_ := None; measurements_pub_ := None; people_pub_ := None |}.

(** The counter after [length clocks] callbacks, in closed form. *)
Definition counter_after (clocks : list Z) : fps_state :=
  match length clocks with
  | O => fps_initial
  | S m => {| frames := Z.of_nat (S (m mod 11));
              start_time := default 0 (clocks !! (11 * (m / 11))%nat);
              reset := bool_decide (m mod 11 = 10)%nat |}
  end.

(** What callback number [i] (counted from 0) prints. *)
Definition printed_at (i : nat) : option Z :=
  if bool_decide ((i + 1) mod 11 = 0)%nat then Some 11 else None.

Section RunVocabulary.
Context {svm_model : Type} `{!Pcl}.

(** [extractFeature] as the orchestrator calls it on a returned group. *)
Definition extract_one (this : Object3dDetector svm_model) (f : Feature.t)
    (cluster : PointCloud) : option Feature.t :=
  extractFeature this cluster f (getMinMax3D cluster).1
    (getMinMax3D cluster).2 (compute3DCentroid cluster).

(** The fields [extractFeature] computes for classification. *)
Definition describes (it : Feature.t) (cluster : PointCloud) : Prop :=
  Feature.number_points it = to_int (Z.of_nat (length cluster)) /\
  Feature.min_distance it = min_distance_of cluster /\
  Feature.covariance_3d it =
    computeCovarianceMatrixNormalized (pca_project cluster)
      (compute3DCentroid cluster) /\
  Feature.moment_3d it =
    computeMomentOfInertiaTensorNormalized (pca_project cluster) /\
  computeSlice cluster 10 = Some (Feature.slice it).
End RunVocabulary.

(** One pass of the accumulation loop of the inertia tensor. *)
Definition inertia_step (m : Matrix3f) (p : PointXYZ) : Matrix3f :=
  let x := pt_x p in let y := pt_y p in let z := pt_z p in
  {| m00 := F.add (m00 m) (F.add (F.mul y y) (F.mul z z));
     m01 := F.sub (m01 m) (F.mul x y);
     m02 := F.sub (m02 m) (F.mul x z);
     m10 := m10 m;
     m11 := F.add (m11 m) (F.add (F.mul x x) (F.mul z z));
     m12 := F.sub (m12 m) (F.mul y z);
     m20 := m20 m;
     m21 := m21 m;
     m22 := F.add (m22 m) (F.add (F.mul x x) (F.mul y y)) |}.
(** ** The constants of <float.h> and the decimal literals *)

Lemma float_h_constants :
  FLT_MAX = SFmax_float F.prec F.emax /\
  DBL_EPSILON = D.sub (SFsucc D.prec D.emax (D.of_Z 1)) (D.of_Z 1) /\
  valid_binary F.prec F.emax FLT_MAX = true /\
  valid_binary D.prec D.emax DBL_EPSILON = true.
Proof. by vm_compute. Qed.

(** 0.1, 0.2 and 0.7 are the doubles 0x1.999999999999Ap-4,
    0x1.999999999999Ap-3 and 0x1.6666666666666p-1. *)
Lemma decimal_literals :
  D.literal 1 1 = S754_finite false 0x1999999999999A (-56) /\
  D.literal 2 1 = S754_finite false 0x1999999999999A (-55) /\
  D.literal 7 1 = S754_finite false 0x16666666666666 (-53).
Proof. by vm_compute. Qed.

(** ** Properties of the IEEE 754 comparisons *)

Section Comparisons.
Implicit Types a b c : spec_float.

Lemma SFcompare_antisym a b r :
  SFcompare a b = Some r -> SFcompare b a = Some (CompOpp r).
Proof.
  destruct a as [[]|[]| |[] m1 e1], b as [[]|[]| |[] m2 e2]; simpl;
    intros H; try discriminate; try (inversion H; subst; reflexivity).
  all: inversion H; subst; clear H; f_equal.
  all: rewrite (Z.compare_antisym e1 e2).
  all: destruct (e1 ?= e2); simpl; try reflexivity.
  all: rewrite (Pos.compare_cont_antisym m1 m2 Eq); simpl; try reflexivity.
  all: destruct (Pos.compare_cont Eq m1 m2); reflexivity.
Qed.

Lemma SFcompare_is_Some a b :
  is_nan a = false -> is_nan b = false -> is_Some (SFcompare a b).
Proof.
  destruct a as [[]|[]| |[] m1 e1], b as [[]|[]| |[] m2 e2]; simpl;
    intros; try discriminate; eauto.
Qed.

Lemma lt_not_nan a b : lt a b = true -> is_nan a = false /\ is_nan b = false.
Proof. destruct a as [| | |[]], b; simpl; auto; discriminate. Qed.

Lemma le_not_nan a b : le a b = true -> is_nan a = false /\ is_nan b = false.
Proof. destruct a as [| | |[]], b; simpl; auto; discriminate. Qed.

(** On numbers, [<=] is the negation of [>]. *)
Lemma le_false_gt a b :
  is_nan a = false -> is_nan b = false -> le a b = false -> gt a b = true.
Proof.
  intros Ha Hb. unfold le, gt, SFleb, SFltb.
  destruct (SFcompare_is_Some a b Ha Hb) as [r Hr].
  rewrite Hr, (SFcompare_antisym _ _ _ Hr). by destruct r.
Qed.

Lemma gt_le_false a b : gt a b = true -> le a b = false.
Proof.
  unfold le, gt, SFleb, SFltb. intros H.
  destruct (SFcompare b a) as [r|] eqn:Hr; [|done].
  rewrite (SFcompare_antisym _ _ _ Hr). by destruct r.
Qed.

Lemma le_gt_iff a b :
  is_nan a = false -> is_nan b = false -> le a b = negb (gt a b).
Proof.
  intros Ha Hb. destruct (le a b) eqn:Hle.
  - destruct (gt a b) eqn:Hgt; [|done].
    apply gt_le_false in Hgt. congruence.
  - by rewrite le_false_gt.
Qed.

Ltac order_cases e1 e2 e3 m1 m2 m3 :=
  rewrite ?Pos.compare_cont_spec; simpl;
  destruct (Z.compare_spec e1 e2); simpl; try discriminate;
  destruct (Z.compare_spec e2 e3); simpl; try discriminate;
  destruct (Z.compare_spec e1 e3); simpl; try reflexivity; try lia;
  subst;
  destruct (Pos.compare_spec m1 m2); simpl; try discriminate;
  destruct (Pos.compare_spec m2 m3); simpl; try discriminate;
  destruct (Pos.compare_spec m1 m3); simpl; try reflexivity; try lia.

Lemma le_trans a b c : le a b = true -> le b c = true -> le a c = true.
Proof.
  unfold le, SFleb.
  destruct a as [[]|[]| |[] m1 e1], b as [[]|[]| |[] m2 e2],
           c as [[]|[]| |[] m3 e3];
    simpl; try discriminate; try reflexivity.
  all: order_cases e1 e2 e3 m1 m2 m3.
Qed.

Lemma lt_le_trans a b c : lt a b = true -> le b c = true -> lt a c = true.
Proof.
  unfold lt, le, SFleb, SFltb.
  destruct a as [[]|[]| |[] m1 e1], b as [[]|[]| |[] m2 e2],
           c as [[]|[]| |[] m3 e3];
    simpl; try discriminate; try reflexivity.
  all: order_cases e1 e2 e3 m1 m2 m3.
Qed.

Lemma le_lt_trans a b c : le a b = true -> lt b c = true -> lt a c = true.
Proof.
  unfold lt, le, SFleb, SFltb.
  destruct a as [[]|[]| |[] m1 e1], b as [[]|[]| |[] m2 e2],
           c as [[]|[]| |[] m3 e3];
    simpl; try discriminate; try reflexivity.
  all: order_cases e1 e2 e3 m1 m2 m3.
Qed.

Lemma lt_le a b : lt a b = true -> le a b = true.
Proof. unfold lt, le, SFltb, SFleb. by destruct (SFcompare a b) as [[]|]. Qed.

Lemma le_refl a : is_nan a = false -> le a a = true.
Proof.
  unfold le, SFleb. destruct a as [[]|[]| |[] m e]; simpl; try done.
  all: rewrite Z.compare_refl, Pos.compare_cont_refl; done.
Qed.
End Comparisons.

(** ** The band walk *)

Section BandWalk.
Lemma running_S range w zones k :
  running range (w :: zones) (S k) = running (D.add range (D.of_Z w)) zones k.
Proof. reflexivity. Qed.

Lemma find_region_Some d zones : forall range j b,
  find_region d range zones j = Some b <->
  exists k w, b = (j + k)%nat /\ zones !! k = Some w /\
    band_test d (running range zones k) w = true /\
    forall k' w', (k' < k)%nat -> zones !! k' = Some w' ->
      band_test d (running range zones k') w' = false.
Proof.
  induction zones as [|w zones IH]; intros range j b; simpl.
  - split; [done|]. by intros (k & w & _ & ? & _).
  - fold (band_test d range w).
    destruct (band_test d range w) eqn:Ht.
    + split.
      * intros [= <-]. exists 0%nat, w.
        split; [lia|]. split; [done|]. split; [done|]. intros; lia.
      * intros (k & w0 & -> & Hk & Hty & Hfirst).
        destruct k as [|k]; [f_equal; lia|].
        assert (band_test d range w = false) as Hf
          by (apply (Hfirst 0%nat w); [lia|done]).
        congruence.
    + rewrite IH. split.
      * intros (k & w0 & -> & Hk & Hty & Hfirst).
        exists (S k), w0. rewrite running_S.
        split; [lia|]. split; [done|]. split; [done|].
        intros [|k'] w' Hlt Hw'; simpl in *.
        -- by inversion Hw'; subst.
        -- rewrite running_S. apply Hfirst; [lia|done].
      * intros (k & w0 & -> & Hk & Hty & Hfirst).
        destruct k as [|k]; simpl in *.
        { inversion Hk; subst. unfold running in Hty. simpl in Hty. congruence. }
        exists k, w0. rewrite running_S in Hty.
        split; [lia|]. split; [done|]. split; [done|].
        intros k' w' Hlt Hw'. specialize (Hfirst (S k') w').
        rewrite running_S in Hfirst. apply Hfirst; [lia|done].
Qed.

Lemma in_band_test d b w :
  zone_ !! b = Some w -> in_band d b = band_test d (range_before b) w.
Proof.
  intros Hw. unfold in_band, band_test, band_lower, band_upper.
  replace (range_before (S b)) with (D.add (range_before b) (D.of_Z w)); [done|].
  unfold range_before. rewrite (take_S_r _ _ _ Hw), fold_left_app. done.
Qed.

(** A point is assigned to the first band whose interval holds its
    squared range. *)
Lemma region_of_first_band p b :
  region_of p = Some b <->
  (b < nested_regions_)%nat /\ in_band (d2 p) b = true /\
  forall j, (j < b)%nat -> in_band (d2 p) j = false.
Proof.
  unfold region_of. rewrite find_region_Some. split.
  - intros (k & w & -> & Hk & Hty & Hfirst). simpl. repeat split.
    + apply lookup_lt_Some in Hk. exact Hk.
    + by rewrite (in_band_test _ _ _ Hk).
    + intros j Hj.
      destruct (lookup_lt_is_Some_2 zone_ j) as [w' Hw'].
      { apply lookup_lt_Some in Hk. lia. }
      rewrite (in_band_test _ _ _ Hw'). by apply Hfirst.
  - intros (Hb & Hin & Hfirst).
    destruct (lookup_lt_is_Some_2 zone_ b Hb) as [w Hw].
    exists b, w. repeat split; auto.
    + by rewrite <- (in_band_test _ _ _ Hw).
    + intros k' w' Hlt Hw'. rewrite <- (in_band_test _ _ _ Hw'). by apply Hfirst.
Qed.
End BandWalk.

(** ** The index sets built by the partitioner *)

Section IndexSets.
Implicit Types arr : list (list nat).

Lemma push_back_at_length arr j i :
  length (push_back_at arr j i) = length arr.
Proof. apply length_alter. Qed.

Lemma in_region_push arr j i b i' :
  (j < length arr)%nat ->
  in_region (push_back_at arr j i) b i' <->
  in_region arr b i' \/ (b = j /\ i' = i).
Proof.
  intros Hj. unfold in_region, push_back_at.
  destruct (decide (b = j)) as [->|Hne].
  - rewrite list_lookup_alter_eq.
    destruct (lookup_lt_is_Some_2 arr j Hj) as [v Hv]. rewrite Hv. simpl.
    split.
    + intros (v' & [= <-] & Hin). apply elem_of_app in Hin as [Hin|Hin].
      * left. eauto.
      * right. apply list_elem_of_singleton in Hin. done.
    + intros [(v' & [= <-] & Hin)|[_ ->]].
      * exists (v ++ [i]). split; [done|]. apply elem_of_app. by left.
      * exists (v ++ [i]). split; [done|]. apply elem_of_app. right.
        by apply list_elem_of_singleton.
  - rewrite list_lookup_alter_ne by done. split; [by left|].
    intros [H|[? _]]; [done|congruence].
Qed.

Lemma divide_from_length pts : forall i arr,
  length (divide_from pts i arr) = length arr.
Proof.
  induction pts as [|p pts IH]; intros i arr; simpl; [done|].
  rewrite IH. destruct (region_of p); [apply push_back_at_length|done].
Qed.

Lemma region_of_lt p j : region_of p = Some j -> (j < nested_regions_)%nat.
Proof. intros H. by apply region_of_first_band in H as [? _]. Qed.

Lemma divide_from_spec pts : forall i arr b i',
  length arr = nested_regions_ ->
  in_region (divide_from pts i arr) b i' <->
  in_region arr b i' \/
  exists k p, pts !! k = Some p /\ i' = (i + k)%nat /\ region_of p = Some b.
Proof.
  induction pts as [|p pts IH]; intros i arr b i' Hlen; simpl.
  - split; [by left|]. intros [H|(k & p & Hk & _)]; done.
  - rewrite IH.
    2:{ destruct (region_of p); [by rewrite push_back_at_length|done]. }
    destruct (region_of p) as [j|] eqn:Hr.
    + rewrite in_region_push.
      2:{ rewrite Hlen. by apply (region_of_lt p). }
      split.
      * intros [[H|[-> ->]]|(k & q & Hk & -> & Hq)].
        -- by left.
        -- right. exists 0%nat, p. split; [done|]. split; [lia|done].
        -- right. exists (S k), q. split; [done|]. split; [lia|done].
      * intros [H|(k & q & Hk & -> & Hq)]; [by left; left|].
        destruct k as [|k]; simpl in Hk.
        -- inversion Hk; subst. left. right. split; [congruence|lia].
        -- right. exists k, q. split; [done|]. split; [lia|done].
    + split.
      * intros [H|(k & q & Hk & -> & Hq)]; [by left|].
        right. exists (S k), q. split; [done|]. split; [lia|done].
      * intros [H|(k & q & Hk & -> & Hq)]; [by left|].
        destruct k as [|k]; simpl in Hk.
        -- inversion Hk; subst. congruence.
        -- right. exists k, q. split; [done|]. split; [lia|done].
Qed.

(** Point number [i] is listed in band [b] exactly when the band walk of
    that point stops at [b]. *)
Lemma divide_regions_spec pc b i :
  in_region (divide_regions pc) b i <->
  exists p, pc !! i = Some p /\ region_of p = Some b.
Proof.
  unfold divide_regions. rewrite divide_from_spec by apply length_replicate.
  split.
  - intros [(v & Hv & Hin)|(k & p & Hk & -> & Hp)].
    + apply lookup_replicate in Hv as [-> _]. by apply elem_of_nil in Hin.
    + by exists p.
  - intros (p & Hp & Hb). right. exists i, p. done.
Qed.
End IndexSets.

(** ** Totality of the walk inside the covered range *)

Section Coverage.
(** Every cumulative threshold of [zone_] is a number. *)
Lemma thresholds_not_nan b :
  (b <= nested_regions_)%nat ->
  is_nan (D.mul (range_before b) (range_before b)) = false.
Proof.
  intros Hb. do 15 (destruct b as [|b]; [by vm_compute|]).
  unfold nested_regions_ in Hb. lia.
Qed.

Lemma band_bounds b :
  (b < nested_regions_)%nat ->
  le zero (band_lower b) = true /\ le (band_upper b) (D.of_Z 1600) = true.
Proof.
  intros Hb. do 14 (destruct b as [|b]; [by vm_compute|]).
  unfold nested_regions_ in Hb. lia.
Qed.

Lemma find_region_total d zones : forall range j,
  is_nan d = false ->
  (forall k, (k <= length zones)%nat ->
     is_nan (D.mul (running range zones k) (running range zones k)) = false) ->
  gt d (D.mul range range) = true ->
  le d (D.mul (running range zones (length zones))
              (running range zones (length zones))) = true ->
  is_Some (find_region d range zones j).
Proof.
  induction zones as [|w zones IH]; intros range j Hd Hnan Hlo Hhi; simpl.
  - unfold running in Hhi. simpl in Hhi.
    apply gt_le_false in Hlo. congruence.
  - rewrite Hlo. simpl.
    destruct (le d (D.mul (D.add range (D.of_Z w)) (D.add range (D.of_Z w))))
      eqn:Hle; [eauto|].
    apply IH; auto.
    + intros k Hk. specialize (Hnan (S k)). rewrite running_S in Hnan.
      apply Hnan. simpl. lia.
    + apply le_false_gt; auto.
      specialize (Hnan 1%nat). apply Hnan. simpl. lia.
Qed.

Lemma region_of_covered p :
  is_Some (region_of p) <->
  gt (d2 p) zero = true /\ le (d2 p) (D.of_Z 1600) = true.
Proof.
  split.
  - intros [b Hb]. apply region_of_first_band in Hb as (Hb & Hin & _).
    unfold in_band in Hin. apply andb_true_iff in Hin as [Hlo Hhi].
    destruct (band_bounds b Hb) as [H0 H1]. split.
    + unfold gt in *. by apply (le_lt_trans _ (band_lower b)).
    + by apply (le_trans _ (band_upper b)).
  - intros [Hlo Hhi]. unfold region_of.
    apply find_region_total.
    + by apply le_not_nan in Hhi as [? _].
    + intros k Hk. by apply thresholds_not_nan.
    + exact Hlo.
    + exact Hhi.
Qed.
End Coverage.

(** ** Region partitioner: the band partition *)

Lemma cumulative_thresholds :
  range_before <$> seq 0 15 =
  D.of_Z <$> [0;2;5;8;11;14;17;20;22;25;28;31;34;37;40].
Proof. by vm_compute. Qed.

Lemma last_threshold : band_lower 0 = zero /\ band_upper 13 = D.of_Z 1600.
Proof. by vm_compute. Qed.

(** C1, as the specification states it, fails at the sensor origin: the
    point (0,0,0) survives the default vertical band and its squared range
    0 is within the last cumulative threshold, yet no band lists it,
    because every band excludes its own lower threshold. *)
Lemma C1_origin_in_no_band :
  let frame :=
    remove_ground_ceiling (param_z_limit_min default_params)
      (param_z_limit_max default_params) [origin] in
  frame !! 0%nat = Some origin /\
  le (d2 origin) (band_upper 13) = true /\
  forall b, ~ in_region (divide_regions frame) b 0.
Proof.
  split; [by vm_compute|]. split; [by vm_compute|].
  intros b (v & Hv & Hin).
  assert (divide_regions
            (remove_ground_ceiling (param_z_limit_min default_params)
               (param_z_limit_max default_params) [origin])
          = replicate nested_regions_ []) as E by (by vm_compute).
  rewrite E in Hv. apply lookup_replicate in Hv as [-> _].
  by apply elem_of_nil in Hin.
Qed.

(** C1 (amended).  For every point [p] at position [i] of the frame left by
    the vertical-band filter: the cumulative thresholds are 0, 2, 5, ...,
    40; [i] is listed in band [b] exactly when [b] is the first of the 14
    bands with [band_lower b < d2 p <= band_upper b]; so [i] is listed in
    at most one band; it is listed in exactly one when its squared range is
    positive and within the last threshold (40 squared), and in none
    otherwise (squared range 0, beyond the last threshold, or not a
    number). *)
Theorem C1_band_partition (z_limit_min_ z_limit_max_ : double)
    (pc : PointCloud) (i : nat) (p : PointXYZ) :
  let frame := remove_ground_ceiling z_limit_min_ z_limit_max_ pc in
  let arr := divide_regions frame in
  frame !! i = Some p ->
  range_before <$> seq 0 15 =
    D.of_Z <$> [0;2;5;8;11;14;17;20;22;25;28;31;34;37;40] /\
  (forall b, in_region arr b i <->
     (b < nested_regions_)%nat /\ in_band (d2 p) b = true /\
     forall j, (j < b)%nat -> in_band (d2 p) j = false) /\
  (forall b b', in_region arr b i -> in_region arr b' i -> b = b') /\
  (gt (d2 p) (band_lower 0) = true -> le (d2 p) (band_upper 13) = true ->
     exists b, in_region arr b i) /\
  (gt (d2 p) (band_lower 0) && le (d2 p) (band_upper 13) = false ->
     forall b, ~ in_region arr b i).
Proof.
  intros frame arr Hp.
  assert (forall b, in_region arr b i <-> region_of p = Some b) as Hreg.
  { intros b. unfold arr. rewrite divide_regions_spec. split.
    - intros (q & Hq & Hb). congruence.
    - intros Hb. by exists p. }
  destruct last_threshold as [-> ->].
  split; [exact cumulative_thresholds|]. split; [|split; [|split]].
  - intros b. rewrite Hreg. apply region_of_first_band.
  - intros b b' Hb Hb'. apply Hreg in Hb, Hb'. congruence.
  - intros Hlo Hhi.
    destruct (proj2 (region_of_covered p) (conj Hlo Hhi)) as [b Hb].
    exists b. by apply Hreg.
  - intros Hout b Hb. apply Hreg in Hb.
    destruct (proj1 (region_of_covered p) (ex_intro _ b Hb)) as [Hlo Hhi].
    rewrite Hlo, Hhi in Hout. done.
Qed.

Lemma C1_band_partition_witness :
  let p := Reference.point_dm 25 0 0 in
  let frame :=
    remove_ground_ceiling (param_z_limit_min default_params)
      (param_z_limit_max default_params) [p] in
  frame !! 0%nat = Some p /\ in_region (divide_regions frame) 1 0.
Proof.
  split; [by vm_compute|].
  apply (C1_band_partition (param_z_limit_min default_params)
           (param_z_limit_max default_params)
           [Reference.point_dm 25 0 0] 0 (Reference.point_dm 25 0 0));
    [by vm_compute|].
  split; [unfold nested_regions_; lia|]. split; [by vm_compute|].
  intros j Hj. assert (j = 0%nat) as -> by lia. by vm_compute.
Defined.

(** ** Rounding is symmetric in the sign *)

Section SignSymmetry.
Variables prec emax : Z.

Lemma binary_round_aux_sign s m e l :
  binary_round_aux prec emax s m e l =
  with_sign s (binary_round_aux prec emax false m e l).
Proof.
  unfold binary_round_aux.
  destruct (shr_fexp prec emax m e l) as [mrs' e'].
  destruct (shr_fexp prec emax _ e' loc_Exact) as [mrs'' e''].
  destruct (shr_m mrs''); simpl; try reflexivity.
  by destruct (e'' <=? emax - prec).
Qed.

Lemma binary_round_sign s m e :
  binary_round prec emax s m e = with_sign s (binary_round prec emax false m e).
Proof.
  unfold binary_round.
  destruct (shl_align m e _) as [mz ez]. apply binary_round_aux_sign.
Qed.

Lemma fabs_with_sign s v : fabs (with_sign s v) = fabs v.
Proof. by destruct v. Qed.

Lemma binary_normalize_opp n e :
  fabs (binary_normalize prec emax (- n) e false) =
  fabs (binary_normalize prec emax n e false).
Proof.
  destruct n as [|m|m]; simpl; [done| |].
  - by rewrite binary_round_sign, fabs_with_sign.
  - by rewrite (binary_round_sign true), fabs_with_sign.
Qed.

(** [|a - b|] and [|b - a|] are the same float. *)
Lemma fabs_sub_swap a b :
  fabs (SFsub prec emax a b) = fabs (SFsub prec emax b a).
Proof.
  destruct a as [[]|[]| |sa ma ea], b as [[]|[]| |sb mb eb];
    simpl; try reflexivity.
  rewrite (Z.min_comm eb ea).
  rewrite <- binary_normalize_opp. f_equal. f_equal. lia.
Qed.

Lemma sub_diag a : is_finite a = true -> SFsub prec emax a a = zero.
Proof.
  destruct a as [[]|[]| |sa ma ea]; simpl; try done.
  intros _. by rewrite Z.sub_diag.
Qed.
End SignSymmetry.

(** ** Feature normaliser *)

Section Normaliser.
Context {svm_model : Type}.
Implicit Types (this : Object3dDetector svm_model) (x : nat -> svm_node).

Lemma store_eq {A} (a : nat -> A) i v : store a i v i = v.
Proof. unfold store. by rewrite decide_True. Qed.

Lemma store_ne {A} (a : nat -> A) i j v : j <> i -> store a i v j = a j.
Proof. intros. unfold store. by rewrite decide_False. Qed.

Lemma fold_store {A} (g : nat -> A -> A) (l : list nat) : forall a i,
  NoDup l ->
  fold_left (fun a k => store a k (g k (a k))) l a i =
  if decide (i ∈ l) then g i (a i) else a i.
Proof.
  induction l as [|k l IH]; intros a i Hnd; simpl.
  - done.
  - apply NoDup_cons in Hnd as [Hk Hnd]. rewrite IH by done.
    destruct (decide (i = k)) as [->|Hne].
    + rewrite store_eq.
      destruct (decide (k ∈ l)) as [?|_]; [done|].
      destruct (decide (k ∈ k :: l)) as [_|Hn]; [done|].
      exfalso. apply Hn. by left.
    + rewrite store_ne by done.
      destruct (decide (i ∈ l)) as [Hin|Hin];
        destruct (decide (i ∈ k :: l)) as [Hin'|Hin']; try done.
      * exfalso. apply Hin'. by right.
      * exfalso. apply elem_of_cons in Hin' as [?|?]; done.
Qed.

(** The scaling loop rewrites the value of each of the 34 attributes
    with [scale_value] and touches nothing else. *)
Lemma scale_data_spec this x i :
  scale_data this x i =
  if decide (i < FEATURE_SIZE)%nat
  then {| index := index (x i);
          value := scale_value (svm_x_lower_ this) (svm_x_upper_ this)
                     (svm_scale_range_ this i) (value (x i)) |}
  else x i.
Proof.
  unfold scale_data.
  rewrite (fold_store (fun k n => {| index := index n; value :=
             scale_value (svm_x_lower_ this) (svm_x_upper_ this)
               (svm_scale_range_ this k) (value n) |}))
    by apply NoDup_seq.
  destruct (decide (i ∈ seq 0 FEATURE_SIZE)) as [Hin|Hin];
    destruct (decide (i < FEATURE_SIZE)%nat) as [Hlt|Hlt]; try done.
  - exfalso. apply elem_of_seq in Hin. lia.
  - exfalso. apply Hin. apply elem_of_seq. lia.
Qed.

Lemma degenerate_swap a b : degenerate (a, b) = within_epsilon b a.
Proof.
  unfold degenerate, within_epsilon, D.sub. simpl.
  by rewrite fabs_sub_swap.
Qed.

Lemma within_epsilon_diag a : is_finite a = true -> within_epsilon a a = true.
Proof. intros Ha. unfold within_epsilon, D.sub. by rewrite sub_diag. Qed.

(** The interpolation never divides by zero. *)
Lemma scale_divisor_nonzero range :
  degenerate range = false -> is_zero (scale_divisor range) = false.
Proof.
  destruct range as [a b]. rewrite degenerate_swap.
  unfold within_epsilon, scale_divisor. simpl.
  destruct (D.sub b a) as [[]|[]| |[] m e]; simpl; try done.
Qed.

Lemma scale_value_cases t_lo t_hi range v :
  (degenerate range = true -> scale_value t_lo t_hi range v = v) /\
  (degenerate range = false ->
     is_zero (scale_divisor range) = false /\
     (within_epsilon v range.1 = true ->
        scale_value t_lo t_hi range v = t_lo) /\
     (within_epsilon v range.1 = false -> within_epsilon v range.2 = true ->
        scale_value t_lo t_hi range v = t_hi) /\
     (within_epsilon v range.1 = false -> within_epsilon v range.2 = false ->
        scale_value t_lo t_hi range v = interpolate t_lo t_hi range v) /\
     (is_finite range.1 = true -> v = range.1 ->
        scale_value t_lo t_hi range v = t_lo) /\
     (is_finite range.2 = true -> v = range.2 ->
        scale_value t_lo t_hi range v = t_hi)).
Proof.
  unfold scale_value. fold (degenerate range).
  fold (within_epsilon v range.1) (within_epsilon v range.2).
  split; [by intros ->|]. intros Hd. rewrite Hd.
  split; [by apply scale_divisor_nonzero|].
  split; [by intros ->|]. split; [by intros -> ->|].
  split; [by intros -> ->|]. split.
  - intros Hfin ->. by rewrite within_epsilon_diag.
  - intros Hfin ->. destruct range as [a b]. simpl in *.
    rewrite degenerate_swap in Hd. by rewrite Hd, within_epsilon_diag.
Qed.
End Normaliser.

(** C2, as the specification states it, fails for a value within epsilon
    of both bounds: with the stored range (0, 2^-52) and targets (-1, 1),
    the value 2^-53 is within epsilon of the upper bound and is mapped to
    the lower target -1, not to the upper target 1. *)
Lemma C2_value_near_both_bounds :
  let range := (zero, DBL_EPSILON) in
  let v := S754_finite false (2 ^ 52) (-105) in
  degenerate range = false /\ within_epsilon v range.2 = true /\
  scale_value (D.of_Z (-1)) (D.of_Z 1) range v = D.of_Z (-1) /\
  scale_value (D.of_Z (-1)) (D.of_Z 1) range v <> D.of_Z 1.
Proof. by vm_compute. Qed.

(** C2 (amended).  For every dimension [i] of the 34-dimensional
    descriptor with stored range (lower, upper) and targets (t_lo, t_hi):
    if |lower - upper| < epsilon the value is left unscaled; otherwise the
    divisor upper - lower is not zero, a value within epsilon of lower is
    mapped to t_lo, a value within epsilon of upper and not within epsilon
    of lower is mapped to t_hi, any other value is mapped to
    t_lo + (t_hi - t_lo) * (value - lower) / (upper - lower); in
    particular a value equal to a (finite) stored bound is mapped to the
    corresponding target. *)
Theorem C2_normalisation_cases {svm_model : Type}
    (this : Object3dDetector svm_model) (x : nat -> svm_node) (i : nat) :
  (i < FEATURE_SIZE)%nat ->
  let range := svm_scale_range_ this i in
  let t_lo := svm_x_lower_ this in
  let t_hi := svm_x_upper_ this in
  let v := value (x i) in
  let out := value (scale_data this x i) in
  (degenerate range = true -> out = v) /\
  (degenerate range = false ->
     is_zero (scale_divisor range) = false /\
     (within_epsilon v range.1 = true -> out = t_lo) /\
     (within_epsilon v range.1 = false -> within_epsilon v range.2 = true ->
        out = t_hi) /\
     (within_epsilon v range.1 = false -> within_epsilon v range.2 = false ->
        out = interpolate t_lo t_hi range v) /\
     (is_finite range.1 = true -> v = range.1 -> out = t_lo) /\
     (is_finite range.2 = true -> v = range.2 -> out = t_hi)).
Proof.
  intros Hi range t_lo t_hi v out.
  assert (out = scale_value t_lo t_hi range v) as ->.
  { unfold out. rewrite scale_data_spec. by case_decide. }
  apply scale_value_cases.
Qed.

Lemma C2_normalisation_cases_witness :
  let this := Reference.detector true true false (D.literal 75 2) in
  let x := saveFeature Reference.zero_feature (svm_node_ this) in
  (0 < FEATURE_SIZE)%nat /\ value (scale_data this x 0) = D.of_Z (-1).
Proof.
  split; [unfold FEATURE_SIZE; lia|].
  destruct (C2_normalisation_cases
              (Reference.detector true true false (D.literal 75 2))
              (saveFeature Reference.zero_feature
                 (svm_node_ (Reference.detector true true false (D.literal 75 2))))
              0) as [_ H]; [unfold FEATURE_SIZE; lia|].
  destruct H as (_ & Hlo & _); [by vm_compute|].
  apply Hlo. by vm_compute.
Defined.

(** ** Classification decision *)

Lemma classify_single {svm_model : Type} `{!Libsvm svm_model}
    (this : Object3dDetector svm_model) (it : Feature.t) (ok : bool) :
  accepts this it = Some ok ->
  classify this [it] =
  Some (if ok
        then {| marker_array_pub_ := Some [marker_of 0 it];
                measurements_pub_ := Some [position (Feature.centroid it)];
                people_pub_ := Some [position (Feature.centroid it)] |}
        else {| marker_array_pub_ := None;
                measurements_pub_ := None;
                people_pub_ := None |}).
Proof.
  intros Hok. unfold classify. cbn [classify_from]. rewrite Hok.
  by destruct ok.
Qed.

(** C3.  With a loaded probability-capable model whose probability for the
    first (human) class on the normalised descriptor is the number [p], a
    cluster is accepted, and then published, if and only if
    [p >= human_probability_]; with the threshold 0.7 a score of 0.65 is
    rejected and a score of 0.75 is accepted. *)
Theorem C3_probability_threshold {svm_model : Type} `{!Libsvm svm_model}
    (this : Object3dDetector svm_model) (model : svm_model) (it : Feature.t)
    (p : double) :
  use_svm_model_ this = true ->
  svm_model_ this = Some model ->
  is_probability_model_ this = true ->
  svm_predict_probability model
    (node_array (scale_data this (saveFeature it (svm_node_ this)))) !! 0%nat
    = Some p ->
  is_nan p = false ->
  is_nan (human_probability_ this) = false ->
  (accepts this it = Some true <-> ge p (human_probability_ this) = true) /\
  (accepts this it = Some false <-> ge p (human_probability_ this) = false) /\
  (exists out, classify this [it] = Some out /\
     (people_pub_ out = Some [position (Feature.centroid it)] <->
      ge p (human_probability_ this) = true) /\
     (people_pub_ out = None <-> ge p (human_probability_ this) = false)) /\
  (human_probability_ this = D.literal 7 1 ->
     (p = D.literal 65 2 -> accepts this it = Some false) /\
     (p = D.literal 75 2 -> accepts this it = Some true)).
Proof.
  intros Huse Hmodel Hprob Hp Hnp Hnt.
  assert (accepts this it = Some (ge p (human_probability_ this))) as Hacc.
  { unfold accepts. rewrite Huse, Hmodel. cbn [mbind option_bind]. cbv zeta.
    rewrite Hprob, Hp. cbn [mbind option_bind].
    f_equal. symmetry. exact (le_gt_iff _ _ Hnt Hnp). }
  rewrite (classify_single _ _ _ Hacc), Hacc.
  split; [split; congruence|]. split; [split; congruence|]. split.
  - eexists. split; [reflexivity|].
    destruct (ge p (human_probability_ this)); cbn [people_pub_];
      split; split; congruence.
  - intros ->. split; intros ->; by vm_compute.
Qed.

Lemma C3_probability_threshold_witness :
  @accepts _ Reference.libsvm
    (Reference.detector true true false (D.literal 75 2))
    Reference.zero_feature = Some true.
Proof.
  pose proof (@C3_probability_threshold _ Reference.libsvm
                (Reference.detector true true false (D.literal 75 2))
                {| Reference.probability_capable := true;
                   Reference.human_score := D.literal 75 2;
                   Reference.label := D.of_Z 1 |}
                Reference.zero_feature (D.literal 75 2)
                eq_refl eq_refl eq_refl eq_refl eq_refl eq_refl)
    as (_ & _ & _ & H).
  exact (proj2 (H eq_refl) eq_refl).
Defined.

(** ** Size limitation *)

Section SizeLimit.
Context {svm_model : Type} `{!Pcl}.
Implicit Types (this : Object3dDetector svm_model).

Lemma outside_iff lo hi v :
  is_nan lo = false -> is_nan hi = false -> is_nan v = false ->
  lt v lo || gt v hi = negb (within lo hi v).
Proof.
  intros Hlo Hhi Hv. unfold within.
  rewrite (le_gt_iff lo v Hlo Hv), (le_gt_iff v hi Hv Hhi).
  unfold gt, lt. by destruct (SFltb v lo), (SFltb hi v).
Qed.

Lemma size_limit_exceeded_iff min max :
  is_nan (extent_x min max) = false ->
  is_nan (extent_y min max) = false ->
  is_nan (extent_z min max) = false ->
  size_limit_exceeded min max =
  negb (human_sized (extent_x min max) (extent_y min max) (extent_z min max)).
Proof.
  intros Hx Hy Hz. unfold size_limit_exceeded, human_sized.
  rewrite !negb_andb.
  rewrite <- (outside_iff _ _ (extent_x min max)) by (done || by vm_compute).
  rewrite <- (outside_iff _ _ (extent_y min max)) by (done || by vm_compute).
  rewrite <- (outside_iff _ _ (extent_z min max)) by (done || by vm_compute).
  by rewrite !orb_assoc.
Qed.
End SizeLimit.

(** C6.  With [human_size_limit_] enabled, a returned group whose
    bounding-box extents are numbers reaches [extractFeature] if and only
    if its extents satisfy x in [0.2, 1.0], y in [0.2, 1.0] and z in
    [0.5, 2.0]; a group with extents (0.1, 0.5, 1.0) is skipped and one
    with extents (0.4, 0.4, 1.7) is passed on. *)
Theorem C6_size_limit_gate {svm_model : Type} `{!Pcl}
    (this : Object3dDetector svm_model) (f : Feature.t) (cluster : PointCloud) :
  let min := (getMinMax3D cluster).1 in
  let max := (getMinMax3D cluster).2 in
  let ex := extent_x min max in
  let ey := extent_y min max in
  let ez := extent_z min max in
  human_size_limit_ this = true ->
  is_nan ex = false -> is_nan ey = false -> is_nan ez = false ->
  (process_cluster this f cluster =
     if human_sized ex ey ez
     then Some (extractFeature this cluster f min max (compute3DCentroid cluster))
     else None) /\
  (is_Some (process_cluster this f cluster) <->
     le (D.literal 2 1) ex = true /\ le ex (D.literal 10 1) = true /\
     le (D.literal 2 1) ey = true /\ le ey (D.literal 10 1) = true /\
     le (D.literal 5 1) ez = true /\ le ez (D.literal 20 1) = true) /\
  (ex = extent_literal 1 1 -> ey = extent_literal 5 1 ->
   ez = extent_literal 10 1 -> process_cluster this f cluster = None) /\
  (ex = extent_literal 4 1 -> ey = extent_literal 4 1 ->
   ez = extent_literal 17 1 -> is_Some (process_cluster this f cluster)).
Proof.
  intros min max ex ey ez Hlimit Hx Hy Hz.
  assert (process_cluster this f cluster =
          if human_sized ex ey ez
          then Some (extractFeature this cluster f min max (compute3DCentroid cluster))
          else None) as Hgate.
  { unfold process_cluster, min, max, ex, ey, ez in *.
    destruct (getMinMax3D cluster) as [mn mx]. cbn [fst snd] in *.
    rewrite Hlimit, size_limit_exceeded_iff by done. cbn [andb].
    by destruct (human_sized _ _ _). }
  split; [exact Hgate|]. rewrite Hgate. split; [|split].
  - destruct (human_sized ex ey ez) eqn:Hs;
      unfold human_sized, within in Hs.
    + split; [intros _|eauto]. rewrite !andb_true_iff in Hs. tauto.
    + split; [by intros [? ?]|]. intros (H1 & H2 & H3 & H4 & H5 & H6).
      by rewrite H1, H2, H3, H4, H5, H6 in Hs.
  - intros -> -> ->.
    by assert (human_sized (extent_literal 1 1) (extent_literal 5 1)
                 (extent_literal 10 1) = false) as -> by (by vm_compute).
  - intros -> -> ->.
    assert (human_sized (extent_literal 4 1) (extent_literal 4 1)
              (extent_literal 17 1) = true) as -> by (by vm_compute).
    eauto.
Qed.

Lemma C6_size_limit_gate_witness :
  is_Some (@process_cluster _ Reference.pcl
             (Reference.detector false false true zero)
             Reference.zero_feature Reference.person).
Proof.
  pose proof (@C6_size_limit_gate _ Reference.pcl
                (Reference.detector false false true zero)
                Reference.zero_feature Reference.person
                eq_refl ltac:(by vm_compute) ltac:(by vm_compute)
                ltac:(by vm_compute)) as (_ & H & _).
  apply H. repeat split; by vm_compute.
Defined.

(** ** Feature extraction without a model *)

(** C10.  In model-free mode [extractFeature] assigns the centroid and the
    two bounding-box corners and nothing else: point count, minimum
    distance, covariance, inertia tensor and slice descriptor keep the
    (unset) contents [f] had on entry. *)
Theorem C10_model_free_sets_only_visualization {svm_model : Type} `{!Pcl}
    (this : Object3dDetector svm_model) (pc : PointCloud) (f : Feature.t)
    (min max centroid : Vector4f) :
  use_svm_model_ this = false ->
  exists f', extractFeature this pc f min max centroid = Some f' /\
    Feature.centroid f' = centroid /\
    Feature.min f' = min /\
    Feature.max f' = max /\
    Feature.number_points f' = Feature.number_points f /\
    Feature.min_distance f' = Feature.min_distance f /\
    Feature.covariance_3d f' = Feature.covariance_3d f /\
    Feature.moment_3d f' = Feature.moment_3d f /\
    Feature.slice f' = Feature.slice f.
Proof.
  intros Hfree. unfold extractFeature. rewrite Hfree.
  eexists. split; [reflexivity|]. by repeat split.
Qed.

Lemma C10_model_free_sets_only_visualization_witness :
  exists f',
    @extractFeature _ Reference.pcl (Reference.detector false false false zero)
      Reference.person Reference.zero_feature Vector4f_zero Vector4f_zero
      Vector4f_zero = Some f' /\
    Feature.slice f' = replicate 20 zero.
Proof.
  destruct (@C10_model_free_sets_only_visualization _ Reference.pcl
              (Reference.detector false false false zero) Reference.person
              Reference.zero_feature Vector4f_zero Vector4f_zero Vector4f_zero
              eq_refl) as (f' & Hf & _ & _ & _ & _ & _ & _ & _ & Hslice).
  exists f'. split; [exact Hf|exact Hslice].
Defined.

(** ** Cluster orchestrator *)

Section Orchestrator.
Context {svm_model : Type} `{!Pcl, !CudaCluster, !Libsvm svm_model}.
Implicit Types (this : Object3dDetector svm_model) (pc : PointCloud).

Lemma extractFeature_model_free this pc f min max centroid :
  use_svm_model_ this = false ->
  extractFeature this pc f min max centroid =
  Some (with_visualization f min max centroid).
Proof. intros Hfree. unfold extractFeature. by rewrite Hfree. Qed.

Lemma process_cluster_model_free this f cluster :
  use_svm_model_ this = false ->
  process_cluster this f cluster =
  if passes_size_limit this cluster
  then Some (Some (model_free_feature f cluster))
  else None.
Proof.
  intros Hfree. unfold process_cluster, passes_size_limit, model_free_feature.
  destruct (getMinMax3D cluster) as [mn mx]. cbn [fst snd].
  destruct (human_size_limit_ this && size_limit_exceeded mn mx); [done|].
  cbn [negb]. by rewrite extractFeature_model_free.
Qed.

Lemma collect_clusters_model_free this f outputEC indexEC groups :
  use_svm_model_ this = false ->
  forall features_,
  collect_clusters this f outputEC indexEC groups features_ =
  Some (features_ ++
        (model_free_feature f <$>
         List.filter (passes_size_limit this)
           (cluster_points outputEC indexEC <$> groups))).
Proof.
  intros Hfree. induction groups as [|i groups IH]; intros features_; simpl.
  - by rewrite app_nil_r.
  - rewrite process_cluster_model_free by done.
    destruct (passes_size_limit this _); simpl.
    + rewrite IH. by rewrite <- app_assoc.
    + apply IH.
Qed.

Lemma surviving_clusters_cons this i ecp cloud calls :
  surviving_clusters this ((i, ecp, cloud) :: calls) =
  List.filter (passes_size_limit this) (groups_of (cudaec_extract ecp cloud))
  ++ surviving_clusters this calls.
Proof. reflexivity. Qed.

(** Without a model every surviving group becomes a feature. *)
Lemma cluster_regions_model_free this f pc regions :
  use_svm_model_ this = false ->
  forall i tolerance features_,
  (cluster_regions this f pc regions i tolerance features_).2 =
  Some (features_ ++
        (model_free_feature f <$>
         surviving_clusters this
           (cluster_regions this f pc regions i tolerance features_).1)).
Proof.
  intros Hfree.
  induction regions as [|indices regions IH]; intros i tolerance features_;
    cbn [cluster_regions].
  - cbn. by rewrite app_nil_r.
  - destruct (Z.of_nat (length indices) >? to_size_t (cluster_size_min_ this));
      [|apply IH].
    destruct (cudaec_extract _ _) as [outputEC indexEC] eqn:Hengine.
    rewrite collect_clusters_model_free by done.
    specialize (IH (S i) (D.add tolerance (D.literal 1 1))
                  (features_ ++
                   (model_free_feature f <$>
                    List.filter (passes_size_limit this)
                      (cluster_points outputEC indexEC <$>
                       seq 1 (indexEC 0%nat))))).
    destruct (cluster_regions this f pc regions (S i) _ _) as [calls r].
    cbn [fst snd] in *. rewrite IH, surviving_clusters_cons, Hengine.
    unfold groups_of. cbn [fst snd].
    by rewrite fmap_app, app_assoc.
Qed.

Lemma accepts_model_free this it :
  use_svm_model_ this = false -> accepts this it = Some true.
Proof. intros Hfree. unfold accepts. by rewrite Hfree. Qed.

(** Without a model every feature yields a marker, a measurement and a
    person. *)
Lemma classify_from_model_free this features_ :
  use_svm_model_ this = false ->
  forall k out,
  classify_from this features_ k out =
  Some {| markers := markers out ++ imap (fun j => marker_of (k + j)) features_;
          measurements := measurements out ++
            ((fun it => position (Feature.centroid it)) <$> features_);
          people := people out ++
            ((fun it => position (Feature.centroid it)) <$> features_) |}.
Proof.
  intros Hfree.
  induction features_ as [|it rest IH]; intros k out; cbn [classify_from].
  - cbn. rewrite !app_nil_r. by destruct out.
  - rewrite accepts_model_free by done. cbn [mbind option_bind].
    rewrite IH. cbn [markers measurements people imap fmap list_fmap].
    rewrite <- !app_assoc. cbn [app]. f_equal. f_equal.
    f_equal. f_equal.
    + unfold marker_of. by rewrite Nat.add_0_r.
    + apply imap_ext. intros j x _. unfold marker_of. cbn.
      f_equal. lia.
Qed.

(** The tolerance of every engine call is that of its band, and, in a
    defined run, every band above the size gate is clustered. *)
Lemma cluster_regions_calls this f pc regions :
  forall i tolerance features_,
  let r := cluster_regions this f pc regions i tolerance features_ in
  (forall j ecp cloud, (j, ecp, cloud) ∈ r.1 ->
     exists k indices, regions !! k = Some indices /\ j = (i + k)%nat /\
       Z.of_nat (length indices) > to_size_t (cluster_size_min_ this) /\
       ecp = cluster_params this (Nat.iter (S k) tolerance_step tolerance) /\
       cloud = copyPointCloud pc indices) /\
  (is_Some r.2 -> forall k indices, regions !! k = Some indices ->
     Z.of_nat (length indices) > to_size_t (cluster_size_min_ this) ->
     ((i + k)%nat,
      cluster_params this (Nat.iter (S k) tolerance_step tolerance),
      copyPointCloud pc indices) ∈ r.1).
Proof.
  induction regions as [|ind0 regions IH]; intros i tolerance features_;
    cbn [cluster_regions].
  - cbn. split; [intros j ecp cloud Hj; by apply elem_of_nil in Hj|].
    intros _ k indices Hk. done.
  - fold (tolerance_step tolerance).
    assert (forall features', let r' := cluster_regions this f pc regions
               (S i) (tolerance_step tolerance) features' in
            (forall j ecp cloud, (j, ecp, cloud) ∈ r'.1 ->
              exists k indices, (ind0 :: regions) !! k = Some indices /\
                j = (i + k)%nat /\
                Z.of_nat (length indices) > to_size_t (cluster_size_min_ this) /\
                ecp = cluster_params this (Nat.iter (S k) tolerance_step tolerance) /\
                cloud = copyPointCloud pc indices) /\
            (is_Some r'.2 -> forall k indices, regions !! k = Some indices ->
               Z.of_nat (length indices) > to_size_t (cluster_size_min_ this) ->
               ((i + S k)%nat,
                cluster_params this (Nat.iter (S (S k)) tolerance_step tolerance),
                copyPointCloud pc indices) ∈ r'.1)) as Hrest.
    { intros features'. destruct (IH (S i) (tolerance_step tolerance) features')
        as [Hsound Hcomplete]. split.
      - intros j ecp cloud Hin.
        destruct (Hsound j ecp cloud Hin) as (k & ind & Hk & -> & Hgt & -> & ->).
        exists (S k), ind. rewrite <- Nat.iter_succ_r.
        split; [done|]. split; [lia|]. done.
      - intros Hdef k ind Hk Hgt.
        replace (i + S k)%nat with (S i + k)%nat by lia.
        rewrite (Nat.iter_succ_r (S k)). by apply Hcomplete. }
    destruct (Z.of_nat (length ind0) >? to_size_t (cluster_size_min_ this))
      eqn:Hgate.
    + destruct (cudaec_extract _ _) as [outputEC indexEC].
      destruct (collect_clusters this f outputEC indexEC _ features_)
        as [features'|].
      * specialize (Hrest features').
        destruct (cluster_regions this f pc regions (S i) _ features')
          as [calls r]. cbn [fst snd] in *.
        destruct Hrest as [Hsound Hcomplete]. split.
        -- intros j ecp cloud [Hhd|Htl]%elem_of_cons.
           ++ inversion Hhd; subst. exists 0%nat, ind0.
              split; [done|]. split; [lia|]. split; [lia|]. done.
           ++ by apply Hsound.
        -- intros Hdef [|k] ind Hk Hgt.
           ++ inversion Hk; subst. rewrite Nat.add_0_r. by left.
           ++ right. by apply Hcomplete.
      * cbn [fst snd]. split; [|by intros [? ?]].
        intros j ecp cloud Hin%list_elem_of_singleton.
        inversion Hin; subst. exists 0%nat, ind0.
        split; [done|]. split; [lia|]. split; [lia|]. done.
    + specialize (Hrest features_).
      destruct (cluster_regions this f pc regions (S i) _ features_)
        as [calls r]. cbn [fst snd] in *.
      destruct Hrest as [Hsound Hcomplete]. split; [done|].
      intros Hdef [|k] ind Hk Hgt.
      * inversion Hk; subst. lia.
      * by apply Hcomplete.
Qed.
End Orchestrator.

Lemma tolerance_table k :
  (k < nested_regions_)%nat ->
  F.of_double (tolerance_of_band k) = adaptive_tolerance k /\
  adaptive_tolerance k = F.div (F.of_Z (Z.of_nat k + 1)) (F.of_Z 10).
Proof.
  intros Hk. do 14 (destruct k as [|k]; [by vm_compute|]).
  unfold nested_regions_ in Hk. lia.
Qed.

(** In [double] the running sum is not always the product: at band 5 it
    is one unit in the last place below 0.1 x 6; the difference vanishes
    in the conversion to the [float] voxel size. *)
Lemma tolerance_sum_differs_in_double :
  tolerance_of_band 5 <> D.mul (D.literal 1 1) (D.of_Z 6) /\
  F.of_double (tolerance_of_band 5) = F.of_double (D.mul (D.literal 1 1) (D.of_Z 6)).
Proof. by vm_compute. Qed.

Lemma divide_regions_length pc : length (divide_regions pc) = nested_regions_.
Proof. unfold divide_regions. by rewrite divide_from_length, length_replicate. Qed.

(** C7.  When the model or the range file cannot be loaded the detector is
    built in model-free mode; in model-free mode every run is defined,
    every feature is accepted, and every group that survives the size
    limitation appears, in processing order, in the published markers,
    measurements and people. *)
Theorem C7_model_free_accepts_all {svm_model : Type}
    `{!Pcl, !CudaCluster, !Libsvm svm_model}
    (params : ros_params) (loaded : option svm_model)
    (opened : option range_file) (mem : indeterminate)
    (this : Object3dDetector svm_model) (f : Feature.t) (pc : PointCloud) :
  (loaded = None \/ opened = None ->
     exists d, Object3dDetector_new params loaded opened mem = Some d /\
               use_svm_model_ d = false) /\
  (use_svm_model_ this = false ->
     let survivors := surviving_clusters this (extractCluster this f pc).1 in
     let features_ := model_free_feature f <$> survivors in
     (extractCluster this f pc).2 = Some features_ /\
     (forall it, accepts this it = Some true) /\
     pointCloudCallback this f pc =
       Some {| marker_array_pub_ := published (imap marker_of features_);
               measurements_pub_ :=
                 published ((fun g => position (compute3DCentroid g)) <$> survivors);
               people_pub_ :=
                 published ((fun g => position (compute3DCentroid g)) <$> survivors) |}).
Proof.
  split.
  - intros Hmissing. unfold Object3dDetector_new.
    destruct loaded as [model|]; [|eauto].
    destruct Hmissing as [?| ->]; [done|eauto].
  - intros Hfree survivors features_.
    assert ((extractCluster this f pc).2 = Some features_) as Hrun.
    { unfold features_, survivors, extractCluster.
      by rewrite cluster_regions_model_free. }
    split; [exact Hrun|]. split; [intros it; by apply accepts_model_free|].
    unfold pointCloudCallback. rewrite Hrun. cbn [mbind option_bind].
    unfold classify. rewrite classify_from_model_free by done.
    cbn [mbind option_bind markers measurements people app].
    unfold features_. rewrite <- list_fmap_compose. done.
Qed.

Lemma C7_model_free_accepts_all_witness :
  let this := Reference.detector false false false zero in
  exists people,
    people_pub_
      <$> @pointCloudCallback _ Reference.pcl Reference.cuda Reference.libsvm
            this Reference.zero_feature Reference.person
    = Some (Some people) /\ length people = 1%nat.
Proof.
  destruct (@C7_model_free_accepts_all _ Reference.pcl Reference.cuda
              Reference.libsvm default_params None None Reference.zero_memory
              (Reference.detector false false false zero)
              Reference.zero_feature Reference.person) as [_ H].
  destruct (H eq_refl) as (_ & _ & Hrun).
  intros this. subst this. rewrite Hrun.
  eexists. split; [by vm_compute|]. reflexivity.
Defined.

(** C8.  Every call of the clustering engine is made for a band [i] that
    holds more than [cluster_size_min_] points, on the points of that
    band, with voxelX = voxelY = voxelZ = the [float] value of
    0.1 x (i + 1), which is the [float] nearest to (i + 1) / 10; in a
    defined run every such band is clustered. *)
Theorem C8_adaptive_tolerance {svm_model : Type} `{!Pcl, !CudaCluster}
    (this : Object3dDetector svm_model) (f : Feature.t) (pc : PointCloud) :
  0 <= cluster_size_min_ this < 2 ^ 31 ->
  let frame :=
    remove_ground_ceiling (z_limit_min_ this) (z_limit_max_ this) pc in
  let arr := divide_regions frame in
  let run := extractCluster this f pc in
  (forall i ecp cloud, (i, ecp, cloud) ∈ run.1 ->
     exists indices, arr !! i = Some indices /\
       Z.of_nat (length indices) > cluster_size_min_ this /\
       cloud = copyPointCloud frame indices /\
       voxelX ecp = adaptive_tolerance i /\
       voxelY ecp = adaptive_tolerance i /\
       voxelZ ecp = adaptive_tolerance i) /\
  (is_Some run.2 -> forall i indices, arr !! i = Some indices ->
     Z.of_nat (length indices) > cluster_size_min_ this ->
     exists ecp cloud, (i, ecp, cloud) ∈ run.1) /\
  (forall i, (i < nested_regions_)%nat ->
     adaptive_tolerance i = F.div (F.of_Z (Z.of_nat i + 1)) (F.of_Z 10)).
Proof.
  intros Hmin frame arr run.
  assert (to_size_t (cluster_size_min_ this) = cluster_size_min_ this) as Hsz.
  { unfold to_size_t. apply Z.mod_small. lia. }
  destruct (cluster_regions_calls this f frame arr 0 zero [])
    as [Hsound Hcomplete].
  rewrite Hsz in Hsound, Hcomplete.
  split; [|split].
  - intros i ecp cloud Hin.
    destruct (Hsound i ecp cloud Hin) as (k & indices & Hk & -> & Hgt & -> & ->).
    exists indices. cbn [Nat.add]. split; [done|]. split; [done|].
    split; [done|].
    assert (k < nested_regions_)%nat as Hlt.
    { apply lookup_lt_Some in Hk. unfold arr in Hk.
      by rewrite divide_regions_length in Hk. }
    destruct (tolerance_table k Hlt) as [Htol _].
    unfold cluster_params. cbn [voxelX voxelY voxelZ].
    by fold (tolerance_of_band k).
  - intros Hdef i indices Hi Hgt.
    specialize (Hcomplete Hdef i indices Hi Hgt). eauto.
  - intros i Hi. by apply tolerance_table.
Qed.

Lemma C8_adaptive_tolerance_witness :
  let this := Reference.detector false false false zero in
  exists ecp cloud,
    (2%nat, ecp, cloud)
      ∈ (@extractCluster _ Reference.pcl Reference.cuda this
           Reference.zero_feature Reference.person).1 /\
    voxelX ecp = adaptive_tolerance 2.
Proof.
  destruct (@C8_adaptive_tolerance _ Reference.pcl Reference.cuda
              (Reference.detector false false false zero)
              Reference.zero_feature Reference.person) as (Hs & Hc & _);
    [by vm_compute|].
  destruct (Hc ltac:(eexists; vm_compute; reflexivity) 2%nat [0;1;2]%nat)
    as (ecp & cloud & Hin); [by vm_compute|by vm_compute|].
  intros this. subst this. exists ecp, cloud. split; [exact Hin|].
  by destruct (Hs _ _ _ Hin) as (_ & _ & _ & _ & ? & _).
Defined.

(** ** Minimum squared distance *)

Section MinDistance.
Lemma le_antisym a b :
  le a b = true -> le b a = true -> is_zero a = false -> a = b.
Proof.
  unfold le, SFleb.
  destruct a as [[]|[]| |[] m1 e1], b as [[]|[]| |[] m2 e2];
    simpl; try discriminate; try reflexivity.
  all: rewrite ?Pos.compare_cont_spec; simpl.
  all: destruct (Z.compare_spec e1 e2); simpl; try discriminate;
       destruct (Z.compare_spec e2 e1); simpl; try discriminate; try lia.
  all: subst.
  all: destruct (Pos.compare_spec m1 m2); simpl; try discriminate;
       destruct (Pos.compare_spec m2 m1); simpl; try discriminate; try lia.
  all: by subst.
Qed.

(** The running minimum is below its start and below every point seen,
    and is the start or the squared distance of a point seen. *)
Lemma running_minimum pc : forall m,
  is_nan m = false ->
  Forall (fun p => is_nan (d2 p) = false) pc ->
  let r := fold_left min_step pc m in
  le r m = true /\
  (forall p, p ∈ pc -> le r (d2 p) = true) /\
  (r = m \/ exists p, p ∈ pc /\ r = d2 p).
Proof.
  induction pc as [|p pc IH]; intros m Hm Hall; simpl.
  - split; [by apply le_refl|]. split; [|by left].
    intros p Hp. by apply elem_of_nil in Hp.
  - apply Forall_cons in Hall as [Hp Hall].
    assert (min_step m p = if gt m (d2 p) then d2 p else m) as ->
      by reflexivity.
    destruct (gt m (d2 p)) eqn:Hgt.
    + destruct (IH (d2 p) Hp Hall) as (Hle & Hbound & Hattained).
      split; [|split].
      * apply (le_trans _ (d2 p)); [done|]. by apply lt_le.
      * intros q Hq. apply elem_of_cons in Hq as [Heq|Hq];
          [by subst|by apply Hbound].
      * right. destruct Hattained as [->|(q & Hq & ->)].
        -- exists p. split; [by left|done].
        -- exists q. split; [by right|done].
    + destruct (IH m Hm Hall) as (Hle & Hbound & Hattained).
      split; [done|]. split.
      * intros q Hq. apply elem_of_cons in Hq as [Heq|Hq];
          [subst q|by apply Hbound].
        apply (le_trans _ m); [done|].
        rewrite (le_gt_iff _ _ Hm Hp). by rewrite Hgt.
      * destruct Hattained as [->|(q & Hq & ->)]; [by left|].
        right. exists q. split; [by right|done].
Qed.

Lemma min_distance_of_minimum pc :
  pc <> [] ->
  Forall (fun p => le (d2 p) (D.of_float FLT_MAX) = true) pc ->
  (exists p, p ∈ pc /\ min_distance_of pc = d2 p) /\
  (forall p, p ∈ pc -> le (min_distance_of pc) (d2 p) = true).
Proof.
  intros Hne Hall.
  assert (Forall (fun p => is_nan (d2 p) = false) pc) as Hnum.
  { eapply Forall_impl; [exact Hall|]. intros p Hp.
    by apply le_not_nan in Hp as [? _]. }
  destruct (running_minimum pc (D.of_float FLT_MAX) eq_refl Hnum)
    as (Hle & Hbound & Hattained).
  fold (min_distance_of pc) in Hle, Hbound, Hattained.
  split; [|exact Hbound].
  destruct Hattained as [Hstart|?]; [|done].
  destruct pc as [|p pc]; [done|]. exists p. split; [by left|].
  rewrite Hstart. apply le_antisym.
  - rewrite <- Hstart. apply Hbound. by left.
  - apply Forall_cons in Hall as [Hp _]. exact Hp.
  - by vm_compute.
Qed.
End MinDistance.

(** C4, as the specification states it, fails without a model: in the
    default, model-free configuration [extractFeature] leaves
    [min_distance] as it found it (here 0), which is the squared distance
    of no member point. *)
Lemma C4_model_free_min_distance_unset :
  exists f',
    @extractFeature _ Reference.pcl (Reference.detector false false false zero)
      Reference.person Reference.zero_feature Vector4f_zero Vector4f_zero
      Vector4f_zero = Some f' /\
    Feature.min_distance f' = zero /\
    Forall (fun p => Feature.min_distance f' <> d2 p) Reference.person.
Proof.
  eexists. split; [by vm_compute|]. split; [by vm_compute|].
  repeat constructor; by vm_compute.
Qed.

(** C4 (amended).  When a classifier model is in use, the [min_distance]
    of the feature extracted from a non-empty cluster whose squared
    distances d2 = x*x + y*y + z*z are numbers up to FLT_MAX is the least
    of them: it is the squared distance of a member point and is below or
    equal to that of every member point; no square root is taken. *)
Theorem C4_min_distance_squared {svm_model : Type} `{!Pcl}
    (this : Object3dDetector svm_model) (pc : PointCloud) (f f' : Feature.t)
    (min max centroid : Vector4f) :
  use_svm_model_ this = true ->
  pc <> [] ->
  Forall (fun p => le (d2 p) (D.of_float FLT_MAX) = true) pc ->
  extractFeature this pc f min max centroid = Some f' ->
  (forall p, d2 p =
     D.of_float (F.add (F.add (F.mul (pt_x p) (pt_x p)) (F.mul (pt_y p) (pt_y p)))
                       (F.mul (pt_z p) (pt_z p)))) /\
  (exists p, p ∈ pc /\ Feature.min_distance f' = d2 p) /\
  (forall p, p ∈ pc -> le (Feature.min_distance f') (d2 p) = true).
Proof.
  intros Huse Hne Hall Hf.
  assert (Feature.min_distance f' = min_distance_of pc) as ->.
  { unfold extractFeature in Hf. rewrite Huse in Hf.
    destruct (computeSlice pc 10); [|done].
    cbn [mbind option_bind] in Hf. by inversion Hf. }
  split; [done|]. by apply min_distance_of_minimum.
Qed.

Lemma C4_min_distance_squared_witness :
  exists f',
    @extractFeature _ Reference.pcl
      (Reference.detector true true false (D.literal 75 2)) Reference.person
      Reference.zero_feature Vector4f_zero Vector4f_zero Vector4f_zero
    = Some f' /\
    le (Feature.min_distance f') (d2 (Reference.point_dm 52 2 3)) = true.
Proof.
  destruct (@extractFeature _ Reference.pcl
              (Reference.detector true true false (D.literal 75 2))
              Reference.person Reference.zero_feature Vector4f_zero
              Vector4f_zero Vector4f_zero) as [f'|] eqn:Hf;
    [|by vm_compute in Hf].
  exists f'. split; [reflexivity|].
  assert (Forall (fun p => le (d2 p) (D.of_float FLT_MAX) = true)
            Reference.person) as Hall
    by (repeat constructor; by vm_compute).
  destruct (@C4_min_distance_squared _ Reference.pcl
              (Reference.detector true true false (D.literal 75 2))
              Reference.person Reference.zero_feature f'
              Vector4f_zero Vector4f_zero Vector4f_zero
              eq_refl ltac:(discriminate) Hall Hf) as (_ & _ & Hleast).
  apply Hleast. unfold Reference.person.
  do 2 right. left.
Defined.

(** ** Slice descriptor *)

Section SliceProperties.
Context `{!Pcl}.

(** A non-negative value that casts to [int] casts to its floor. *)
Lemma cast_nonnegative q k :
  le zero q = true -> double_to_int q = Some k ->
  0 <= k < 2 ^ 31 /\ floor q = Some k.
Proof.
  unfold double_to_int.
  destruct q as [s|s| |s m e]; try discriminate.
  - intros _ [= <-]. split; [lia|done].
  - intros Hpos. assert (s = false) as -> by (by destruct s).
    cbn [truncate floor].
    set (a := match e with
              | Zneg n => Z.shiftr (Z.pos m) (Z.pos n)
              | _ => Z.shiftl (Z.pos m) e
              end).
    assert (0 <= a /\
            a = match e with
                | Zneg n => Z.pos m / 2 ^ Z.pos n
                | _ => Z.pos m * 2 ^ e
                end) as [Ha Hfloor].
    { unfold a. destruct e as [|n|n].
      - rewrite Z.shiftl_0_r. lia.
      - rewrite Z.shiftl_mul_pow2 by lia. split; [|done].
        apply Z.mul_nonneg_nonneg; [lia|]. apply Z.pow_nonneg. lia.
      - rewrite Z.shiftr_div_pow2 by lia. split; [|done].
        apply Z.div_pos; [lia|]. apply Z.pow_pos_nonneg; lia. }
    destruct ((- 2 ^ 31 <=? a) && (a <? 2 ^ 31)) eqn:Hrange; [|done].
    intros [= <-]. apply andb_true_iff in Hrange as [_ Hlt%Z.ltb_lt].
    split; [lia|]. by rewrite <- Hfloor.
Qed.

Lemma slice_index_bin zmin itv p :
  binnable zmin itv p ->
  exists j, slice_index 10 zmin itv p = Some j /\ (j < 10)%nat /\
            bin_of 10 zmin itv p = Some (Z.of_nat j).
Proof.
  intros [Hpos [k Hk]].
  destruct (cast_nonnegative _ _ Hpos Hk) as [Hrange Hfloor].
  unfold slice_index, bin_of. fold (scaled_height zmin itv p).
  rewrite Hk, Hfloor. cbn [mbind option_bind].
  assert (Z.min (10 - 1) k mod 2 ^ 32 = Z.min (10 - 1) k) as ->
    by (apply Z.mod_small; lia).
  assert ((Z.min (10 - 1) k <? 10) = true) as -> by (apply Z.ltb_lt; lia).
  exists (Z.to_nat (Z.min (10 - 1) k)). split; [done|]. split; [lia|].
  f_equal. lia.
Qed.

Lemma bin_points_cons n zmin itv p pc i :
  bin_points n zmin itv (p :: pc) i =
  if bool_decide (bin_of n zmin itv p = Some (Z.of_nat i))
  then p :: bin_points n zmin itv pc i
  else bin_points n zmin itv pc i.
Proof. reflexivity. Qed.

(** After the binning loop, block [i] holds, in cloud order, the points
    whose bin is [i]. *)
Lemma fill_blocks_bins zmin itv pts : forall blocks,
  Forall (binnable zmin itv) pts ->
  length blocks = 10%nat ->
  exists blocks', fill_blocks 10 zmin itv pts blocks = Some blocks' /\
    length blocks' = 10%nat /\
    forall i blk, blocks !! i = Some blk ->
      blocks' !! i = Some (blk ++ bin_points 10 zmin itv pts i).
Proof.
  induction pts as [|p pts IH]; intros blocks Hall Hlen; cbn [fill_blocks].
  - exists blocks. split; [done|]. split; [done|].
    intros i blk Hi. cbn. by rewrite app_nil_r.
  - apply Forall_cons in Hall as [Hp Hall].
    destruct (slice_index_bin zmin itv p Hp) as (j & -> & Hj & Hbin).
    cbn [mbind option_bind].
    destruct (IH (alter (fun blk => blk ++ [p]) j blocks) Hall)
      as (blocks' & -> & Hlen' & Hblocks).
    { by rewrite length_alter. }
    exists blocks'. split; [done|]. split; [done|].
    intros i blk Hi. rewrite bin_points_cons, Hbin.
    destruct (decide (i = j)) as [->|Hne].
    + rewrite bool_decide_eq_true_2 by done.
      rewrite (Hblocks j (blk ++ [p])).
      * by rewrite <- app_assoc.
      * by rewrite list_lookup_alter_eq, Hi.
    + rewrite bool_decide_eq_false_2.
      * apply Hblocks. by rewrite list_lookup_alter_ne.
      * intros [= Heq]. lia.
Qed.

Lemma block_box_extents blk :
  (D.of_float (F.sub (v0 (block_box blk).2) (v0 (block_box blk).1)),
   D.of_float (F.sub (v1 (block_box blk).2) (v1 (block_box blk).1)))
  = bin_extents blk.
Proof.
  unfold block_box, bin_extents.
  by destruct (2 <? Z.of_nat (length blk)).
Qed.

(** The last loop stores the two extents of block [i + k] in cells
    [(i + k) * 2] and [(i + k) * 2 + 1] and leaves the cells below
    [i * 2] alone. *)
Lemma slice_blocks_cells blocks : forall i slice,
  length slice = 20%nat ->
  (i + length blocks <= 10)%nat ->
  exists slice', slice_blocks blocks i slice = Some slice' /\
    length slice' = 20%nat /\
    (forall j, (j < i * 2)%nat -> slice' !! j = slice !! j) /\
    forall k blk, blocks !! k = Some blk ->
      slice' !! ((i + k) * 2)%nat = Some (bin_extents blk).1 /\
      slice' !! ((i + k) * 2 + 1)%nat = Some (bin_extents blk).2.
Proof.
  induction blocks as [|blk blocks IH]; intros i slice Hlen Hfit;
    cbn [slice_blocks].
  - exists slice. split; [done|]. split; [done|]. split; [done|].
    intros k blk Hk. done.
  - cbn [length] in Hfit. pose proof (block_box_extents blk) as Hbox.
    destruct (block_box blk) as [block_min block_max]. cbn [fst snd] in Hbox.
    assert ((i * 2 + 1 <? length slice)%nat = true) as ->
      by (apply Nat.ltb_lt; lia).
    set (x0 := D.of_float (F.sub (v0 block_max) (v0 block_min))).
    set (x1 := D.of_float (F.sub (v1 block_max) (v1 block_min))).
    destruct (IH (S i) (<[(i * 2 + 1)%nat := x1]> (<[(i * 2)%nat := x0]> slice)))
      as (slice' & -> & Hlen' & Hbelow & Hcells).
    { by rewrite !length_insert. }
    { lia. }
    exists slice'. split; [done|]. split; [done|]. split.
    + intros j Hj. rewrite Hbelow by lia.
      rewrite !list_lookup_insert_ne by lia. done.
    + intros [|k] blk' Hk.
      * inversion Hk; subst blk'. rewrite Nat.add_0_r, <- Hbox.
        cbn [fst snd]. rewrite !Hbelow by lia. split.
        -- rewrite list_lookup_insert_ne by lia.
           apply list_lookup_insert_eq. lia.
        -- apply list_lookup_insert_eq. rewrite length_insert. lia.
      * replace (i + S k)%nat with (S i + k)%nat by lia.
        by apply Hcells.
Qed.

Lemma computeSlice_eq pc n :
  computeSlice pc n =
  if gt (slice_interval (getMinMax3D pc).1 (getMinMax3D pc).2 n) zero
  then
    blocks ← fill_blocks n (v2 (getMinMax3D pc).1)
               (slice_interval (getMinMax3D pc).1 (getMinMax3D pc).2 n) pc
               (replicate (Z.to_nat n) []);
    slice_blocks blocks 0 (replicate 20 zero)
  else Some (replicate 20 zero).
Proof. unfold computeSlice. by destruct (getMinMax3D pc). Qed.
End SliceProperties.

(** C5.  The slice descriptor written by [extractFeature] (when a model
    is in use) is [computeSlice] of the cluster's own, unprojected points
    with n = 10 and itv = (zmax - zmin) / 10.  If itv is not positive (in
    particular if it is 0) all 20 values are 0.  Otherwise, for a cluster whose
    scaled heights (z - zmin) / itv are non-negative and cast to [int],
    the 20 values exist and, for every bin i < 10, cells 2i and 2i + 1
    hold the two extents of bin i, where bin i collects, in cloud order,
    the points with min (9, floor ((z - zmin) / itv)) = i, and the extents
    of a bin are those of the bounding box of the PCA projection of just
    its points along the first two axes when it has more than 2 points and
    (0, 0) when it has 2 or fewer. *)
Theorem C5_slice_descriptor {svm_model : Type} `{!Pcl}
    (this : Object3dDetector svm_model) (pc : PointCloud) (f : Feature.t)
    (min max centroid : Vector4f) :
  let pc_min := (getMinMax3D pc).1 in
  let pc_max := (getMinMax3D pc).2 in
  let itv := slice_interval pc_min pc_max 10 in
  itv = D.of_float (F.div (F.sub (v2 pc_max) (v2 pc_min)) (F.of_Z 10)) /\
  (use_svm_model_ this = true ->
     Feature.slice <$> extractFeature this pc f min max centroid
       = computeSlice pc 10) /\
  (gt itv zero = false -> computeSlice pc 10 = Some (replicate 20 zero)) /\
  (is_zero itv = true -> computeSlice pc 10 = Some (replicate 20 zero)) /\
  (gt itv zero = true -> Forall (binnable (v2 pc_min) itv) pc ->
     exists slice, computeSlice pc 10 = Some slice /\
       length slice = 20%nat /\
       forall i, (i < 10)%nat ->
         slice !! (i * 2)%nat
           = Some (bin_extents (bin_points 10 (v2 pc_min) itv pc i)).1 /\
         slice !! (i * 2 + 1)%nat
           = Some (bin_extents (bin_points 10 (v2 pc_min) itv pc i)).2).
Proof.
  intros pc_min pc_max itv.
  assert (gt itv zero = false -> computeSlice pc 10 = Some (replicate 20 zero))
    as Hflat.
  { intros Hgt. rewrite computeSlice_eq. fold pc_min pc_max itv.
    by rewrite Hgt. }
  split; [done|]. split; [|split; [exact Hflat|split]].
  - intros Huse. unfold extractFeature. rewrite Huse.
    by destruct (computeSlice pc 10).
  - intros Hzero. apply Hflat. by destruct itv.
  - intros Hgt Hall.
    destruct (fill_blocks_bins (v2 pc_min) itv pc (replicate 10 []) Hall)
      as (blocks & Hfill & Hlen & Hblocks); [done|].
    destruct (slice_blocks_cells blocks 0 (replicate 20 zero))
      as (slice & Hslice & Hlen' & _ & Hcells); [done|lia|].
    exists slice. split; [|split; [done|]].
    + rewrite computeSlice_eq. fold pc_min pc_max itv. rewrite Hgt.
      change (Z.to_nat 10) with 10%nat. rewrite Hfill.
      exact Hslice.
    + intros i Hi.
      apply (Hcells i (bin_points 10 (v2 pc_min) itv pc i)).
      rewrite (Hblocks i []); [done|].
      apply lookup_replicate. done.
Qed.

Lemma C5_slice_descriptor_witness :
  exists slice,
    @computeSlice Reference.pcl Reference.person 10 = Some slice /\
    slice !! 0%nat = Some zero.
Proof.
  destruct (@C5_slice_descriptor _ Reference.pcl
              (Reference.detector true true false (D.literal 75 2))
              Reference.person Reference.zero_feature Vector4f_zero
              Vector4f_zero Vector4f_zero)
    as (_ & _ & _ & _ & H).
  destruct H as (slice & Hslice & _ & Hcells); [by vm_compute| |].
  { repeat constructor; try (by vm_compute); eexists; by vm_compute. }
  exists slice. split; [exact Hslice|].
  destruct (Hcells 0%nat) as [H0 _]; [lia|].
  change (0 * 2)%nat with 0%nat in H0. rewrite H0. by vm_compute.
Defined.

(** ** Scale-range table *)

(** Rows the range file does not list keep whatever the uninitialised
    member array held. *)
Lemma load_ranges_unlisted rows : forall tbl tbl' i,
  load_ranges rows tbl = Some tbl' ->
  (forall row, row ∈ rows -> row.1.1 <> Z.of_nat i + 1) ->
  tbl' i = tbl i.
Proof.
  induction rows as [|[[idx fmin] fmax] rows IH]; intros tbl tbl' i Hload Hrows.
  - by inversion Hload.
  - cbn [load_ranges] in Hload.
    destruct ((1 <=? idx) && (idx <=? Z.of_nat FEATURE_SIZE)) eqn:Hidx; [|done].
    rewrite (IH _ _ i Hload).
    + apply store_ne. specialize (Hrows (idx, fmin, fmax)). cbn in Hrows.
      apply andb_true_iff in Hidx as [H1%Z.leb_le _].
      intros ->. apply Hrows; [by left|lia].
    + intros row Hrow. apply Hrows. by right.
Qed.

(** A detector built with a range file scales an unlisted attribute with
    the indeterminate row, and leaves it alone only when that row happens
    to be constant. *)
Lemma unlisted_dimension_uses_indeterminate_row {svm_model : Type}
    `{!Libsvm svm_model} params (model : svm_model) file mem this x i :
  Object3dDetector_new params (Some model) (Some file) mem = Some this ->
  (i < FEATURE_SIZE)%nat ->
  (forall row, row ∈ scanned_rows file -> row.1.1 <> Z.of_nat i + 1) ->
  svm_scale_range_ this i = ind_svm_scale_range mem i /\
  (degenerate (ind_svm_scale_range mem i) = true ->
     value (scale_data this x i) = value (x i)).
Proof.
  intros Hnew Hi Hrows. unfold Object3dDetector_new in Hnew.
  destruct (load_ranges (scanned_rows file) (ind_svm_scale_range mem))
    as [tbl|] eqn:Hload; [|done].
  cbn [mbind option_bind] in Hnew. inversion Hnew; subst this; clear Hnew.
  cbn [svm_scale_range_].
  pose proof (load_ranges_unlisted _ _ _ i Hload Hrows) as Hrow.
  split; [exact Hrow|]. intros Hdeg.
  rewrite scale_data_spec.
  destruct (decide (i < FEATURE_SIZE)%nat); [|done].
  cbn [value svm_scale_range_]. rewrite Hrow.
  by apply scale_value_cases.
Qed.

(** C9, evaluated where the code departs from it.  The range file lists
    attribute 1 only and the uninitialised row of attribute 2 happens to
    hold (0, 1): the constructor succeeds, attribute 2 is not listed, and
    its value 0.5 (the minimum distance) reaches the classifier as 0, not
    unchanged. *)
Theorem C9_unlisted_dimension_rescaled :
  let mem := {|
    ind_is_probability_model := false;
    ind_svm_node := fun _ => {| index := 0; value := zero |};
    ind_svm_scale_range := fun _ => (zero, D.of_Z 1);
    ind_svm_x_lower := zero;
    ind_svm_x_upper := zero |} in
  let file := {|
    scanned_bounds := [D.of_Z (-1); D.of_Z 1];
    scanned_rows := [(1, zero, D.of_Z 100)] |} in
  let model := {|
    Reference.probability_capable := true;
    Reference.human_score := D.literal 75 2;
    Reference.label := D.of_Z 1 |} in
  let it := {|
    Feature.centroid := Vector4f_zero;
    Feature.min := Vector4f_zero;
    Feature.max := Vector4f_zero;
    Feature.number_points := 0;
    Feature.min_distance := D.literal 5 1;
    Feature.covariance_3d := Matrix3f_zero;
    Feature.moment_3d := Matrix3f_zero;
    Feature.slice := replicate 20 zero |} in
  exists this,
    @Object3dDetector_new _ Reference.libsvm default_params (Some model)
      (Some file) mem = Some this /\
    use_svm_model_ this = true /\
    (forall row, row ∈ scanned_rows file -> row.1.1 <> 2) /\
    index (saveFeature it (svm_node_ this) 1%nat) = 2 /\
    value (saveFeature it (svm_node_ this) 1%nat) = D.literal 5 1 /\
    value (scale_data this (saveFeature it (svm_node_ this)) 1%nat) = zero /\
    value (scale_data this (saveFeature it (svm_node_ this)) 1%nat)
      <> value (saveFeature it (svm_node_ this) 1%nat).
Proof.
  eexists. split; [by vm_compute|]. split; [done|]. split.
  - intros row Hrow%list_elem_of_singleton. by subst.
  - repeat split; by vm_compute.
Qed.

(** ** More on the region partitioner *)

Section RegionLists.
Lemma positions_in_band_bounds pts : forall i b x,
  x ∈ positions_in_band pts i b -> (i <= x < i + length pts)%nat.
Proof.
  induction pts as [|p pts IH]; intros i b x Hx; cbn [positions_in_band] in Hx.
  - by apply elem_of_nil in Hx.
  - cbn [length]. destruct (bool_decide (region_of p = Some b)).
    + apply elem_of_cons in Hx as [->|Hx]; [lia|].
      apply IH in Hx. lia.
    + apply IH in Hx. lia.
Qed.

Lemma positions_in_band_ascending pts : forall i b k1 k2 x1 x2,
  (k1 < k2)%nat ->
  positions_in_band pts i b !! k1 = Some x1 ->
  positions_in_band pts i b !! k2 = Some x2 ->
  (x1 < x2)%nat.
Proof.
  induction pts as [|p pts IH]; intros i b k1 k2 x1 x2 Hk H1 H2;
    cbn [positions_in_band] in H1, H2.
  - done.
  - destruct (bool_decide (region_of p = Some b)); [|by eapply IH].
    destruct k2 as [|k2]; [lia|]. cbn in H2.
    destruct k1 as [|k1]; cbn in H1.
    + inversion H1; subst x1.
      apply list_elem_of_lookup_2, positions_in_band_bounds in H2. lia.
    + eapply (IH (S i) b k1 k2); [lia|done|done].
Qed.

Lemma divide_from_lookup pts : forall i arr b v,
  length arr = nested_regions_ ->
  arr !! b = Some v ->
  divide_from pts i arr !! b = Some (v ++ positions_in_band pts i b).
Proof.
  induction pts as [|p pts IH]; intros i arr b v Hlen Hb;
    cbn [divide_from positions_in_band].
  - by rewrite app_nil_r.
  - destruct (region_of p) as [j|] eqn:Hr.
    + destruct (decide (j = b)) as [->|Hne].
      * rewrite bool_decide_eq_true_2 by done.
        rewrite (IH _ _ b (v ++ [i])).
        -- by rewrite <- app_assoc.
        -- by rewrite push_back_at_length.
        -- unfold push_back_at. by rewrite list_lookup_alter_eq, Hb.
      * rewrite bool_decide_eq_false_2 by congruence.
        apply IH; [by rewrite push_back_at_length|].
        unfold push_back_at. by rewrite list_lookup_alter_ne.
    + rewrite bool_decide_eq_false_2 by congruence. by apply IH.
Qed.

Lemma copy_positions_in_band pts : forall pre b,
  copyPointCloud (pre ++ pts) (positions_in_band pts (length pre) b) =
  List.filter (fun p => bool_decide (region_of p = Some b)) pts.
Proof.
  induction pts as [|p pts IH]; intros pre b;
    cbn [positions_in_band List.filter]; [done|].
  specialize (IH (pre ++ [p]) b).
  rewrite <- app_assoc, length_app, Nat.add_1_r in IH. cbn [app] in IH.
  destruct (bool_decide (region_of p = Some b)); [|exact IH].
  unfold copyPointCloud in *. cbn [omap list_omap].
  rewrite list_lookup_middle by done. cbn. by rewrite IH.
Qed.
End RegionLists.

(** X1.  Each of the 14 index lists holds positions of the filtered frame
    in strictly ascending order, each below the frame length, and copying
    the frame at these positions yields exactly the frame's points of that
    band, in frame order. *)
Theorem region_lists_ascending_and_exact (frame : PointCloud) (b : nat) :
  (b < nested_regions_)%nat ->
  exists indices,
    divide_regions frame !! b = Some indices /\
    (forall k1 k2 i1 i2, (k1 < k2)%nat ->
       indices !! k1 = Some i1 -> indices !! k2 = Some i2 -> (i1 < i2)%nat) /\
    (forall i, i ∈ indices -> (i < length frame)%nat) /\
    copyPointCloud frame indices =
      List.filter (fun p => bool_decide (region_of p = Some b)) frame.
Proof.
  intros Hb. exists (positions_in_band frame 0 b).
  split; [|split; [|split]].
  - unfold divide_regions.
    rewrite (divide_from_lookup frame 0 _ b []); [done|apply length_replicate|].
    by apply lookup_replicate.
  - apply positions_in_band_ascending.
  - intros i Hi. apply positions_in_band_bounds in Hi. lia.
  - apply (copy_positions_in_band frame [] b).
Qed.

Lemma region_lists_ascending_and_exact_witness :
  exists indices,
    divide_regions Reference.person !! 2%nat = Some indices /\
    copyPointCloud Reference.person indices = Reference.person.
Proof.
  destruct (region_lists_ascending_and_exact Reference.person 2)
    as (indices & Hidx & _ & _ & Hcopy); [unfold nested_regions_; lia|].
  exists indices. split; [exact Hidx|]. rewrite Hcopy. by vm_compute.
Defined.

(** ** Squared ranges are never negative *)

Section SquaredRange.
Variables prec emax : Z.

Lemma not_negative_with_sign v : not_negative (with_sign false v) = true.
Proof. by destruct v. Qed.

Lemma mul_self_not_negative v : not_negative (SFmul prec emax v v) = true.
Proof.
  destruct v as [[]|[]| |s m e]; try reflexivity.
  cbn [SFmul]. rewrite binary_round_aux_sign.
  assert (xorb s s = false) as -> by (by destruct s).
  apply not_negative_with_sign.
Qed.

Lemma mul_self_overflowed v :
  is_finite v = false -> overflowed (SFmul prec emax v v) = true.
Proof. by destruct v as [[]|[]| |s m e]. Qed.

Lemma add_not_negative a b :
  not_negative a = true -> not_negative b = true ->
  not_negative (SFadd prec emax a b) = true /\
  (overflowed a || overflowed b = true ->
   overflowed (SFadd prec emax a b) = true).
Proof.
  destruct a as [[]|[]| |[] ma ea], b as [[]|[]| |[] mb eb];
    try discriminate; try (by split).
  intros _ _. unfold SFadd, cond_Zopp. rewrite <- Pos2Z.inj_add.
  unfold binary_normalize. rewrite binary_round_sign.
  split; [apply not_negative_with_sign|done].
Qed.

Lemma round_not_negative v :
  not_negative v = true ->
  not_negative (match v with
                | S754_finite s m e => binary_round prec emax s m e
                | _ => v
                end) = true /\
  (overflowed v = true ->
   overflowed (match v with
               | S754_finite s m e => binary_round prec emax s m e
               | _ => v
               end) = true).
Proof.
  destruct v as [[]|[]| |[] m e]; try discriminate; try (by split).
  intros _. rewrite binary_round_sign.
  split; [apply not_negative_with_sign|done].
Qed.
End SquaredRange.

Lemma d2_not_negative p : not_negative (d2 p) = true.
Proof.
  unfold d2, D.of_float. apply round_not_negative.
  apply add_not_negative; [|apply mul_self_not_negative].
  apply add_not_negative; apply mul_self_not_negative.
Qed.

Lemma d2_overflowed p :
  is_finite (pt_x p) && is_finite (pt_y p) && is_finite (pt_z p) = false ->
  overflowed (d2 p) = true.
Proof.
  intros Hp. unfold d2, D.of_float.
  pose proof (mul_self_not_negative F.prec F.emax (pt_x p)) as Hx.
  pose proof (mul_self_not_negative F.prec F.emax (pt_y p)) as Hy.
  pose proof (mul_self_not_negative F.prec F.emax (pt_z p)) as Hz.
  destruct (add_not_negative F.prec F.emax _ _ Hx Hy) as [Hxy Hoxy].
  destruct (add_not_negative F.prec F.emax _ _ Hxy Hz) as [Hxyz Hoxyz].
  apply round_not_negative; [exact Hxyz|]. apply Hoxyz.
  destruct (is_finite (pt_z p)) eqn:Fz.
  - rewrite andb_true_r in Hp. rewrite Hoxy; [done|].
    destruct (is_finite (pt_x p)) eqn:Fx.
    + cbn in Hp. by rewrite (mul_self_overflowed _ _ (pt_y p)), orb_true_r.
    + by rewrite (mul_self_overflowed _ _ (pt_x p)).
  - by rewrite (mul_self_overflowed _ _ (pt_z p)), orb_true_r.
Qed.

(** X2.  The squared range of a point is never negative, and the band walk
    leaves a point in no band exactly when its squared range is not a
    number, is zero, or exceeds 40 squared; in particular a point with a
    coordinate that is NaN or infinite is in no band. *)
Theorem unassigned_points (p : PointXYZ) :
  lt (d2 p) zero = false /\
  (region_of p = None <->
     is_nan (d2 p) = true \/ is_zero (d2 p) = true \/
     gt (d2 p) (D.of_Z 1600) = true) /\
  (is_finite (pt_x p) && is_finite (pt_y p) && is_finite (pt_z p) = false ->
     region_of p = None).
Proof.
  pose proof (d2_not_negative p) as Hnn.
  assert (region_of p = None <->
          is_nan (d2 p) = true \/ is_zero (d2 p) = true \/
          gt (d2 p) (D.of_Z 1600) = true) as Hnone.
  { rewrite eq_None_not_Some, region_of_covered. split.
    - intros Hout. destruct (is_nan (d2 p)) eqn:Hnan; [by left|right].
      destruct (is_zero (d2 p)) eqn:Hz; [by left|right].
      apply le_false_gt; [done|done|].
      destruct (le (d2 p) (D.of_Z 1600)) eqn:Hle; [|done].
      exfalso. apply Hout. split; [|done].
      by destruct (d2 p) as [[]|[]| |[] m e].
    - intros [Hnan|[Hz|Hgt]] [Hlo Hhi].
      + by destruct (d2 p).
      + by destruct (d2 p).
      + apply gt_le_false in Hgt. congruence. }
  split; [|split; [exact Hnone|]].
  - by destruct (d2 p) as [[]|[]| |[] m e].
  - intros Hp. apply Hnone. apply d2_overflowed in Hp.
    destruct (d2 p) as [[]|[]| |[] m e]; try discriminate; [by right; right|by left].
Qed.

Lemma unassigned_points_witness :
  region_of {| pt_x := S754_infinity true; pt_y := zero; pt_z := zero |} = None.
Proof.
  apply (unassigned_points
           {| pt_x := S754_infinity true; pt_y := zero; pt_z := zero |}).
  reflexivity.
Defined.

(** ** The range of [min_distance] *)

Section MinDistanceRange.
Lemma le_gt_false a b : le a b = true -> gt a b = false.
Proof.
  intros Hle. destruct (le_not_nan _ _ Hle) as [Ha Hb].
  rewrite (le_gt_iff _ _ Ha Hb) in Hle. by destruct (gt a b).
Qed.

Lemma running_minimum_any pc : forall m,
  is_nan m = false ->
  let r := fold_left min_step pc m in
  le r m = true /\
  (forall p, p ∈ pc -> gt r (d2 p) = false) /\
  (r = m \/ exists p, p ∈ pc /\ r = d2 p).
Proof.
  induction pc as [|p pc IH]; intros m Hm; cbn [fold_left].
  - split; [by apply le_refl|]. split; [|by left].
    intros p Hp. by apply elem_of_nil in Hp.
  - assert (min_step m p = if gt m (d2 p) then d2 p else m) as ->
      by reflexivity.
    destruct (gt m (d2 p)) eqn:Hgt.
    + destruct (lt_not_nan _ _ Hgt) as [Hp _].
      destruct (IH (d2 p) Hp) as (Hle & Hbound & Hattained).
      split; [|split].
      * apply (le_trans _ (d2 p)); [done|]. by apply lt_le.
      * intros q Hq. apply elem_of_cons in Hq as [->|Hq];
          [by apply le_gt_false|by apply Hbound].
      * right. destruct Hattained as [->|(q & Hq & ->)].
        -- exists p. split; [by left|done].
        -- exists q. split; [by right|done].
    + destruct (IH m Hm) as (Hle & Hbound & Hattained).
      split; [done|]. split.
      * intros q Hq. apply elem_of_cons in Hq as [->|Hq];
          [|by apply Hbound].
        destruct (gt (fold_left min_step pc m) (d2 p)) eqn:Hcloser; [|done].
        pose proof (lt_le_trans (d2 p) _ m Hcloser Hle) as Hc.
        unfold gt, lt in *. congruence.
      * destruct Hattained as [->|(q & Hq & ->)]; [by left|].
        right. exists q. split; [by right|done].
Qed.
End MinDistanceRange.

(** X3.  Whatever the points of a cluster (NaN and infinite coordinates
    included, or no point at all), the running minimum ends as a number
    between 0 and FLT_MAX that no point undercuts, and it is FLT_MAX
    itself or the squared distance of a member point: points whose squared
    distance is NaN or infinite are passed over. *)
Theorem min_distance_range (pc : PointCloud) :
  le zero (min_distance_of pc) = true /\
  le (min_distance_of pc) (D.of_float FLT_MAX) = true /\
  (forall p, p ∈ pc -> gt (min_distance_of pc) (d2 p) = false) /\
  (min_distance_of pc = D.of_float FLT_MAX \/
   exists p, p ∈ pc /\ min_distance_of pc = d2 p) /\
  min_distance_of [] = D.of_float FLT_MAX.
Proof.
  destruct (running_minimum_any pc (D.of_float FLT_MAX) eq_refl)
    as (Hle & Hbound & Hattained).
  fold (min_distance_of pc) in Hle, Hbound, Hattained.
  split; [|by repeat split].
  destruct (le_not_nan _ _ Hle) as [Hnan _].
  assert (not_negative (min_distance_of pc) = true) as Hnn.
  { destruct Hattained as [->|(p & _ & ->)]; [done|apply d2_not_negative]. }
  by destruct (min_distance_of pc) as [[]|[]| |[] m e].
Qed.

Lemma min_distance_range_witness :
  gt (min_distance_of Reference.person) (d2 (Reference.point_dm 52 2 3)) = false.
Proof.
  destruct (min_distance_range Reference.person) as (_ & _ & Hbound & _).
  apply Hbound. unfold Reference.person. do 2 right. left.
Defined.

(** ** More on the slice descriptor *)

Section SliceBins.
Context `{!Pcl}.

Lemma slice_index_lt n zmin itv p j :
  slice_index n zmin itv p = Some j -> (j < Z.to_nat n)%nat.
Proof.
  unfold slice_index.
  destruct (double_to_int _) as [q|]; [|done]. cbn [mbind option_bind].
  destruct (Z.min (n - 1) q mod 2 ^ 32 <? n) eqn:Hlt; [|done].
  intros [= <-]. apply Z.ltb_lt in Hlt.
  pose proof (Z.mod_pos_bound (Z.min (n - 1) q) (2 ^ 32)). lia.
Qed.

Lemma concat_alter_snoc (blocks : list (list PointXYZ)) p : forall j,
  (j < length blocks)%nat ->
  concat (alter (fun blk => blk ++ [p]) j blocks) ≡ₚ concat blocks ++ [p].
Proof.
  induction blocks as [|blk blocks IH]; intros j Hj; [cbn in Hj; lia|].
  destruct j as [|j]; cbn.
  - rewrite <- !app_assoc. apply Permutation_app_head, Permutation_app_comm.
  - rewrite IH by (cbn in Hj; lia). by rewrite app_assoc.
Qed.

Lemma fill_blocks_partition n zmin itv pts : forall blocks blocks',
  length blocks = Z.to_nat n ->
  fill_blocks n zmin itv pts blocks = Some blocks' ->
  length blocks' = Z.to_nat n /\ concat blocks' ≡ₚ concat blocks ++ pts.
Proof.
  induction pts as [|p pts IH]; intros blocks blocks' Hlen Hfill;
    cbn [fill_blocks] in Hfill.
  - inversion Hfill; subst. by rewrite app_nil_r.
  - destruct (slice_index n zmin itv p) as [j|] eqn:Hj; [|done].
    cbn [mbind option_bind] in Hfill.
    apply IH in Hfill as [Hlen' Hperm]; [|by rewrite length_alter].
    split; [done|]. rewrite Hperm, concat_alter_snoc.
    + by rewrite <- app_assoc.
    + rewrite Hlen. by apply (slice_index_lt n zmin itv p).
Qed.

Lemma slice_blocks_length blocks : forall i slice slice',
  slice_blocks blocks i slice = Some slice' -> length slice' = length slice.
Proof.
  induction blocks as [|blk blocks IH]; intros i slice slice' Hs;
    cbn [slice_blocks] in Hs.
  - by inversion Hs.
  - destruct (block_box blk) as [block_min block_max].
    destruct (i * 2 + 1 <? length slice)%nat; [|done].
    apply IH in Hs. by rewrite !length_insert in Hs.
Qed.

Lemma slice_blocks_small blocks : forall i slice',
  Forall (fun blk => (length blk <= 2)%nat) blocks ->
  slice_blocks blocks i (replicate 20 zero) = Some slice' ->
  slice' = replicate 20 zero.
Proof.
  induction blocks as [|blk blocks IH]; intros i slice' Hsmall Hs;
    cbn [slice_blocks] in Hs.
  - by inversion Hs.
  - apply Forall_cons in Hsmall as [Hblk Hsmall].
    unfold block_box in Hs.
    assert ((2 <? Z.of_nat (length blk)) = false) as Hfew
      by (apply Z.ltb_ge; lia).
    rewrite Hfew in Hs.
    destruct (i * 2 + 1 <? length (replicate 20 zero))%nat eqn:Hfit; [|done].
    apply Nat.ltb_lt in Hfit. rewrite length_replicate in Hfit.
    change (D.of_float (F.sub (v0 Vector4f_zero) (v0 Vector4f_zero)))
      with zero in Hs.
    change (D.of_float (F.sub (v1 Vector4f_zero) (v1 Vector4f_zero)))
      with zero in Hs.
    rewrite (list_insert_id (replicate 20 zero) (i * 2)) in Hs
      by (apply lookup_replicate; split; [done|lia]).
    rewrite (list_insert_id (replicate 20 zero) (i * 2 + 1)) in Hs
      by (apply lookup_replicate; split; [done|lia]).
    by apply IH in Hs.
Qed.

Lemma concat_replicate_nil k :
  concat (replicate k ([] : list PointXYZ)) = [].
Proof. induction k as [|k IH]; [done|exact IH]. Qed.

Lemma block_in_concat (blocks : list (list PointXYZ)) blk :
  blk ∈ blocks -> (length blk <= length (concat blocks))%nat.
Proof.
  induction 1 as [blk blocks|blk blk' blocks _ IH]; cbn;
    rewrite length_app; lia.
Qed.
End SliceBins.

(** X4.  When the binning loop of [computeSlice] completes, the [n] blocks
    are a partition of the cluster: together they hold every point exactly
    once. *)
Theorem slice_blocks_partition `{!Pcl} (n : Z) (zmin : float) (itv : double)
    (pc : PointCloud) (blocks : list PointCloud) :
  fill_blocks n zmin itv pc (replicate (Z.to_nat n) []) = Some blocks ->
  length blocks = Z.to_nat n /\ concat blocks ≡ₚ pc.
Proof.
  intros Hfill.
  apply fill_blocks_partition in Hfill as [Hlen Hperm];
    [|apply length_replicate].
  split; [done|]. by rewrite Hperm, concat_replicate_nil.
Qed.

Lemma slice_blocks_partition_witness :
  exists blocks,
    @fill_blocks 10 (F.of_Z (-1)) (D.literal 2 1) Reference.person
      (replicate 10 []) = Some blocks /\
    concat blocks ≡ₚ Reference.person.
Proof.
  destruct (@fill_blocks 10 (F.of_Z (-1)) (D.literal 2 1) Reference.person
              (replicate 10 [])) as [blocks|] eqn:Hfill;
    [|by vm_compute in Hfill].
  exists blocks. split; [reflexivity|].
  by apply (@slice_blocks_partition Reference.pcl 10 (F.of_Z (-1))
              (D.literal 2 1) Reference.person blocks).
Defined.

(** X5.  [computeSlice], whenever it completes, returns exactly 20 values,
    and for a cluster of at most 2 points all of them are 0. *)
Theorem slice_length_and_small_clusters `{!Pcl} (pc : PointCloud) (n : Z)
    (slice : list double) :
  computeSlice pc n = Some slice ->
  length slice = 20%nat /\
  ((length pc <= 2)%nat -> slice = replicate 20 zero).
Proof.
  rewrite computeSlice_eq.
  destruct (gt (slice_interval _ _ n) zero); [|by intros [= <-]].
  destruct (fill_blocks n _ _ pc _) as [blocks|] eqn:Hfill; [|done].
  cbn [mbind option_bind]. intros Hslice. split.
  - apply slice_blocks_length in Hslice. by rewrite Hslice, length_replicate.
  - intros Hfew.
    apply fill_blocks_partition in Hfill as [_ Hperm];
      [|apply length_replicate].
    rewrite concat_replicate_nil in Hperm. cbn [app] in Hperm.
    apply (slice_blocks_small blocks 0); [|done].
    apply Forall_forall. intros blk Hblk%block_in_concat.
    rewrite Hperm in Hblk. lia.
Qed.

Lemma slice_length_and_small_clusters_witness :
  @computeSlice Reference.pcl
    [Reference.point_dm 50 0 0; Reference.point_dm 50 0 10] 10
  = Some (replicate 20 zero).
Proof.
  destruct (@computeSlice Reference.pcl
              [Reference.point_dm 50 0 0; Reference.point_dm 50 0 10] 10)
    as [slice|] eqn:Hslice; [|by vm_compute in Hslice].
  destruct (@slice_length_and_small_clusters Reference.pcl _ _ _ Hslice)
    as [_ Hzero].
  rewrite Hzero; [reflexivity|cbn; lia].
Defined.

(** ** The node array handed to libsvm *)

Section NodeArray.
Context {svm_model : Type}.
Implicit Types (this : Object3dDetector svm_model) (x : nat -> svm_node).

Lemma scale_data_index this x i :
  index (scale_data this x i) = index (x i).
Proof.
  rewrite scale_data_spec. by destruct (decide (i < FEATURE_SIZE)%nat).
Qed.

Lemma scale_data_end_marker this x :
  scale_data this x FEATURE_SIZE = x FEATURE_SIZE.
Proof.
  rewrite scale_data_spec.
  destruct (decide (FEATURE_SIZE < FEATURE_SIZE)%nat); [lia|done].
Qed.

Ltac abstract_values it :=
  unfold node_array, saveFeature, set_node;
  repeat match goal with
         | |- context [D.of_float ?a] => generalize (D.of_float a); intro
         end;
  generalize (D.of_Z (Feature.number_points it)); intro;
  generalize (Feature.min_distance it); intro;
  generalize (slice_cell it); intro.

Lemma saveFeature_indices it x :
  index <$> node_array (saveFeature it x) = (Z.of_nat <$> seq 1 34) ++ [-1].
Proof. abstract_values it. by vm_compute. Qed.

Lemma saveFeature_values it x :
  value <$> take 34 (node_array (saveFeature it x))
  = [ D.of_Z (Feature.number_points it); Feature.min_distance it;
      D.of_float (m00 (Feature.covariance_3d it));
      D.of_float (m01 (Feature.covariance_3d it));
      D.of_float (m02 (Feature.covariance_3d it));
      D.of_float (m11 (Feature.covariance_3d it));
      D.of_float (m12 (Feature.covariance_3d it));
      D.of_float (m22 (Feature.covariance_3d it));
      D.of_float (m00 (Feature.moment_3d it));
      D.of_float (m01 (Feature.moment_3d it));
      D.of_float (m02 (Feature.moment_3d it));
      D.of_float (m11 (Feature.moment_3d it));
      D.of_float (m12 (Feature.moment_3d it));
      D.of_float (m22 (Feature.moment_3d it)) ]
    ++ (slice_cell it <$> seq 0 20).
Proof. abstract_values it. by vm_compute. Qed.

Lemma saveFeature_overwrites it x x' :
  take 34 (node_array (saveFeature it x))
  = take 34 (node_array (saveFeature it x')).
Proof. abstract_values it. by vm_compute. Qed.

Lemma saveFeature_end_marker it x :
  saveFeature it x FEATURE_SIZE
  = {| index := -1; value := value (x FEATURE_SIZE) |}.
Proof. abstract_values it. by vm_compute. Qed.
End NodeArray.

(** X6.  The array passed to libsvm always carries the indices 1 to 34 in
    ascending order followed by the end marker -1; scaling changes neither
    an index nor the end marker; the 34 values written by [saveFeature]
    are the point count, the minimum distance, the upper triangles of the
    covariance and of the inertia tensor and the 20 slice values, and the
    34 cells do not depend on what the buffer held before. *)
Theorem node_array_layout {svm_model : Type}
    (this : Object3dDetector svm_model) (it : Feature.t)
    (x x' : nat -> svm_node) :
  index <$> node_array (scale_data this (saveFeature it x))
    = (Z.of_nat <$> seq 1 34) ++ [-1] /\
  scale_data this (saveFeature it x) FEATURE_SIZE
    = {| index := -1; value := value (x FEATURE_SIZE) |} /\
  value <$> take 34 (node_array (saveFeature it x))
    = [ D.of_Z (Feature.number_points it); Feature.min_distance it;
        D.of_float (m00 (Feature.covariance_3d it));
        D.of_float (m01 (Feature.covariance_3d it));
        D.of_float (m02 (Feature.covariance_3d it));
        D.of_float (m11 (Feature.covariance_3d it));
        D.of_float (m12 (Feature.covariance_3d it));
        D.of_float (m22 (Feature.covariance_3d it));
        D.of_float (m00 (Feature.moment_3d it));
        D.of_float (m01 (Feature.moment_3d it));
        D.of_float (m02 (Feature.moment_3d it));
        D.of_float (m11 (Feature.moment_3d it));
        D.of_float (m12 (Feature.moment_3d it));
        D.of_float (m22 (Feature.moment_3d it)) ]
      ++ (slice_cell it <$> seq 0 20) /\
  take 34 (node_array (saveFeature it x))
    = take 34 (node_array (saveFeature it x')).
Proof.
  split; [|split; [|split]].
  - rewrite <- (saveFeature_indices it x). unfold node_array.
    rewrite <- !list_fmap_compose. apply list_fmap_ext.
    intros i y _. apply scale_data_index.
  - by rewrite scale_data_end_marker, saveFeature_end_marker.
  - apply saveFeature_values.
  - apply saveFeature_overwrites.
Qed.

(** ** The decision without probabilities *)

Lemma SFeqb_one v : SFeqb v (D.of_Z 1) = true <-> v = D.of_Z 1.
Proof.
  split; [|by intros ->].
  unfold SFeqb. change (D.of_Z 1) with (S754_finite false (2 ^ 52) (-52)).
  destruct v as [[]|[]| |[] m e]; try discriminate. cbn [SFcompare].
  destruct (Z.compare_spec e (-52)); try discriminate.
  rewrite Pos.compare_cont_spec. cbn [Pos.switch_Eq].
  destruct (Pos.compare_spec m (2 ^ 52)); try discriminate.
  by subst.
Qed.

(** X7.  With a loaded model that has no probability information, a
    cluster is accepted if and only if the label predicted for its
    normalised descriptor is the double 1.0; any other label, NaN
    included, rejects it. *)
Theorem label_decision {svm_model : Type} `{!Libsvm svm_model}
    (this : Object3dDetector svm_model) (model : svm_model) (it : Feature.t) :
  use_svm_model_ this = true ->
  svm_model_ this = Some model ->
  is_probability_model_ this = false ->
  let predicted :=
    svm_predict model
      (node_array (scale_data this (saveFeature it (svm_node_ this)))) in
  (accepts this it = Some true <-> predicted = D.of_Z 1) /\
  (accepts this it = Some false <-> predicted <> D.of_Z 1).
Proof.
  intros Huse Hmodel Hprob predicted.
  assert (accepts this it = Some (SFeqb predicted (D.of_Z 1))) as ->.
  { unfold accepts. rewrite Huse, Hmodel. cbn [mbind option_bind]. cbv zeta.
    by rewrite Hprob. }
  rewrite <- SFeqb_one.
  destruct (SFeqb predicted (D.of_Z 1)); split; split; congruence.
Qed.

Lemma label_decision_witness :
  @accepts _ Reference.libsvm
    (Reference.detector true false false zero) Reference.zero_feature
  = Some true.
Proof.
  apply (@label_decision _ Reference.libsvm
           (Reference.detector true false false zero)
           {| Reference.probability_capable := false;
              Reference.human_score := zero;
              Reference.label := D.of_Z 1 |}
           Reference.zero_feature eq_refl eq_refl eq_refl).
  reflexivity.
Defined.

(** ** What a frame publishes, with any model *)

Section ClassifyAccepted.
Context {svm_model : Type} `{!Libsvm svm_model}.
Implicit Types (this : Object3dDetector svm_model).

Lemma classify_from_undefined this features_ :
  forall k out,
  classify_from this features_ k out = None <->
  exists it, it ∈ features_ /\ accepts this it = None.
Proof.
  induction features_ as [|it rest IH]; intros k out; cbn [classify_from].
  - split; [done|]. intros (it & Hit & _). by apply elem_of_nil in Hit.
  - destruct (accepts this it) as [ok|] eqn:Hok; cbn [mbind option_bind].
    + assert ((exists it', it' ∈ it :: rest /\ accepts this it' = None) <->
              (exists it', it' ∈ rest /\ accepts this it' = None)) as ->.
      { split; intros (it' & Hin & Hnone); exists it'; split; try done.
        - apply elem_of_cons in Hin as [->|Hin]; [congruence|done].
        - apply elem_of_cons; by right. }
      destruct ok; apply IH.
    + split; [|done]. intros _. exists it. split; [apply elem_of_cons; by left|done].
Qed.

Lemma classify_from_accepted this features_ :
  forall k out out',
  classify_from this features_ k out = Some out' ->
  markers out' = markers out ++
    ((fun e => marker_of e.1 e.2) <$> accepted_features this k features_) /\
  measurements out' = measurements out ++
    ((fun e => position (Feature.centroid e.2))
       <$> accepted_features this k features_) /\
  people out' = people out ++
    ((fun e => position (Feature.centroid e.2))
       <$> accepted_features this k features_).
Proof.
  unfold accepted_features.
  induction features_ as [|it rest IH]; intros k out out';
    cbn [classify_from numbered_from List.filter].
  - intros [= <-]. cbn. by rewrite !app_nil_r.
  - destruct (accepts this it) as [[]|] eqn:Hok; cbn [mbind option_bind];
      [| |done]; intros Hrun; apply IH in Hrun as (Hm & Hp & Hq);
      cbn [snd bool_decide]; rewrite Hok.
    + rewrite bool_decide_eq_true_2 by done.
      cbn [fmap list_fmap markers measurements people fst snd] in *.
      rewrite Hm, Hp, Hq, <- !app_assoc. done.
    + rewrite bool_decide_eq_false_2 by done. done.
Qed.

Lemma numbered_from_positions {A} (l : list A) k j a :
  (j, a) ∈ numbered_from k l <-> (k <= j)%nat /\ l !! (j - k)%nat = Some a.
Proof.
  revert k. induction l as [|b l IH]; intros k; cbn [numbered_from].
  - split; [intros Hin; by apply elem_of_nil in Hin|by intros [_ ?]].
  - rewrite elem_of_cons, IH. split.
    + intros [[= -> ->]|[Hle Hl]].
      * split; [lia|]. by replace (k - k)%nat with 0%nat by lia.
      * split; [lia|]. by replace (j - k)%nat with (S (j - S k)) by lia.
    + intros [Hle Hl]. destruct (decide (j = k)) as [->|Hne].
      * left. replace (k - k)%nat with 0%nat in Hl by lia.
        cbn in Hl. congruence.
      * right. split; [lia|].
        by replace (j - k)%nat with (S (j - S k)) in Hl by lia.
Qed.

Lemma accepted_features_lookup this features_ j it :
  (j, it) ∈ accepted_features this 0 features_ <->
  features_ !! j = Some it /\ accepts this it = Some true.
Proof.
  unfold accepted_features.
  rewrite list_elem_of_In, filter_In, <- list_elem_of_In,
    numbered_from_positions. cbn [snd].
  rewrite bool_decide_eq_true, Nat.sub_0_r. intuition lia.
Qed.

Lemma accepted_features_length this features_ : forall k,
  (length (accepted_features this k features_) <= length features_)%nat.
Proof.
  unfold accepted_features.
  induction features_ as [|it rest IH]; intros k;
    cbn [numbered_from List.filter length]; [done|].
  specialize (IH (S k)). destruct (bool_decide _); cbn [length]; lia.
Qed.

Lemma classify_published this features_ pubs :
  classify this features_ = Some pubs ->
  marker_array_pub_ pubs =
    published ((fun e => marker_of e.1 e.2)
                 <$> accepted_features this 0 features_) /\
  measurements_pub_ pubs =
    published ((fun e => position (Feature.centroid e.2))
                 <$> accepted_features this 0 features_) /\
  people_pub_ pubs = measurements_pub_ pubs.
Proof.
  unfold classify.
  destruct (classify_from _ _ _ _) as [out|] eqn:Hrun; [|done].
  intros [= <-]. cbn [marker_array_pub_ measurements_pub_ people_pub_].
  apply classify_from_accepted in Hrun as (Hm & Hp & Hq).
  cbn [markers measurements people app] in *. by rewrite Hm, Hp, Hq.
Qed.
End ClassifyAccepted.

(** X8.  With or without a model, a frame's classification is undefined
    exactly when the decision is undefined for one of the features; when
    it is defined, the marker, measurement and person messages carry one
    entry per accepted feature, in feature order; a marker's id is the
    position of its feature among ALL features of the frame (so ids skip
    the rejected ones); a measurement and a person carry the feature's
    centroid; and the three messages are sent together or not at all -
    not at all exactly when no feature is accepted. *)
Theorem classify_accepted_features {svm_model : Type} `{!Libsvm svm_model}
    (this : Object3dDetector svm_model) (features_ : list Feature.t) :
  (classify this features_ = None <->
   exists it, it ∈ features_ /\ accepts this it = None) /\
  (forall j it, (j, it) ∈ accepted_features this 0 features_ <->
     features_ !! j = Some it /\ accepts this it = Some true) /\
  forall pubs, classify this features_ = Some pubs ->
    marker_array_pub_ pubs =
      published ((fun e => marker_of e.1 e.2)
                   <$> accepted_features this 0 features_) /\
    measurements_pub_ pubs =
      published ((fun e => position (Feature.centroid e.2))
                   <$> accepted_features this 0 features_) /\
    people_pub_ pubs = measurements_pub_ pubs /\
    (marker_array_pub_ pubs = None <-> measurements_pub_ pubs = None) /\
    (marker_array_pub_ pubs = None <->
       accepted_features this 0 features_ = []).
Proof.
  split; [|split].
  - unfold classify. rewrite <- (classify_from_undefined this features_ 0
      {| markers := []; measurements := []; people := [] |}).
    by destruct (classify_from _ _ _ _).
  - intros j it. apply accepted_features_lookup.
  - intros pubs (Hm & Hp & Hq)%classify_published. rewrite Hq, Hm, Hp.
    destruct (accepted_features this 0 features_); cbn; by repeat split.
Qed.

Lemma classify_accepted_features_witness :
  exists pubs,
    @classify _ Reference.libsvm
      (Reference.detector true true false (D.literal 9 1))
      [Reference.zero_feature] = Some pubs /\
    marker_array_pub_ pubs = Some [marker_of 0 Reference.zero_feature].
Proof.
  destruct (@classify_accepted_features _ Reference.libsvm
              (Reference.detector true true false (D.literal 9 1))
              [Reference.zero_feature]) as (_ & _ & Hpubs).
  eexists. split; [by vm_compute|].
  rewrite (proj1 (Hpubs _ ltac:(by vm_compute))). by vm_compute.
Defined.

(** ** The constructor with a model and a range file *)

Lemma load_ranges_defined rows : forall tbl,
  is_Some (load_ranges rows tbl) <-> Forall row_in_table rows.
Proof.
  induction rows as [|[[idx fmin] fmax] rows IH]; intros tbl;
    cbn [load_ranges].
  - split; [by constructor|by eauto].
  - rewrite Forall_cons. unfold row_in_table at 1. cbn [fst].
    destruct ((1 <=? idx) && (idx <=? Z.of_nat FEATURE_SIZE)) eqn:Hidx.
    + rewrite IH. apply andb_true_iff in Hidx as [?%Z.leb_le ?%Z.leb_le].
      intuition lia.
    + split; [by intros [? [=]]|]. intros [[?%Z.leb_le ?%Z.leb_le] _].
      by rewrite (proj2 (andb_true_iff _ _)) in Hidx.
Qed.

Lemma load_ranges_last_row rows : forall tbl tbl' i,
  load_ranges rows tbl = Some tbl' ->
  tbl' i = default (tbl i) (listed_range rows i).
Proof.
  unfold listed_range.
  induction rows as [|[[idx fmin] fmax] rows IH]; intros tbl tbl' i Hload;
    cbn [load_ranges List.filter] in *.
  - by inversion Hload.
  - destruct ((1 <=? idx) && (idx <=? Z.of_nat FEATURE_SIZE)) eqn:Hidx; [|done].
    apply andb_true_iff in Hidx as [H1%Z.leb_le _].
    rewrite (IH _ _ i Hload). cbn [fst snd].
    destruct (decide (idx = Z.of_nat i + 1)) as [->|Hne].
    + rewrite bool_decide_eq_true_2 by done.
      replace (Z.to_nat (Z.of_nat i + 1 - 1)) with i by lia.
      destruct (List.filter _ rows) as [|r l]; [cbn; by rewrite store_eq|].
      rewrite (last_cons (Z.of_nat i + 1, fmin, fmax) (r :: l)).
      destruct (last (r :: l)); [done|cbn; by rewrite store_eq].
    + rewrite bool_decide_eq_false_2 by done.
      rewrite store_ne by lia. done.
Qed.

(** X9.  Construction is undefined exactly when a model and a range file
    are both there and a row of the file carries an index outside 1..34
    (the write leaves the table).  A constructed detector uses the model
    exactly when both the model and the range file were there, it then
    holds that model, and each attribute's bounds are those of the LAST
    row naming it, or what the table held before when no row names it. *)
Theorem constructor_with_range_file {svm_model : Type} `{!Libsvm svm_model}
    (params : ros_params) (loaded : option svm_model)
    (opened : option range_file) (mem : indeterminate) :
  (Object3dDetector_new params loaded opened mem = None <->
   exists model file, loaded = Some model /\ opened = Some file /\
     ~ Forall row_in_table (scanned_rows file)) /\
  forall this, Object3dDetector_new params loaded opened mem = Some this ->
    svm_model_ this = loaded /\
    (use_svm_model_ this = true <-> is_Some loaded /\ is_Some opened) /\
    (use_svm_model_ this = true -> is_Some (svm_model_ this)) /\
    forall file, use_svm_model_ this = true -> opened = Some file ->
      forall i, svm_scale_range_ this i =
                default (ind_svm_scale_range mem i)
                  (listed_range (scanned_rows file) i).
Proof.
  unfold Object3dDetector_new.
  destruct loaded as [model|], opened as [file|]; cbn [mbind option_bind].
  - destruct (load_ranges (scanned_rows file) (ind_svm_scale_range mem))
      as [tbl|] eqn:Hload; cbn [mbind option_bind].
    + split.
      * split; [done|]. intros (? & ? & [= <-] & [= <-] & Hrows).
        destruct Hrows. eapply load_ranges_defined; eauto.
      * intros this [= <-]. cbn. repeat split; eauto.
        intros file' _ [= <-] i. by apply load_ranges_last_row.
    + split; [|done]. split; [|done]. intros _. exists model, file.
      repeat split. intros Hrows.
      eapply load_ranges_defined in Hrows as [? Hsome].
      by rewrite Hload in Hsome.
  - split; [split; [done|by intros (? & ? & _ & [=] & _)]|].
    intros this [= <-]. cbn. repeat split; try done.
    intros [_ [? [=]]].
  - split; [split; [done|by intros (? & ? & [=] & _)]|].
    intros this [= <-]. cbn. repeat split; try done.
    intros [[? [=]] _].
  - split; [split; [done|by intros (? & ? & [=] & _)]|].
    intros this [= <-]. cbn. repeat split; try done.
    intros [[? [=]] _].
Qed.

Lemma constructor_with_range_file_witness :
  exists this,
    @Object3dDetector_new _ Reference.libsvm default_params
      (Some {| Reference.probability_capable := true;
               Reference.human_score := zero;
               Reference.label := D.of_Z 1 |})
      (Some {| scanned_bounds := [D.of_Z (-1); D.of_Z 1];
               scanned_rows := [(2, D.of_Z 0, D.of_Z 5);
                                (2, D.of_Z 1, D.of_Z 7)] |})
      Reference.zero_memory = Some this /\
    svm_scale_range_ this 1%nat = (D.of_Z 1, D.of_Z 7).
Proof.
  destruct (@constructor_with_range_file _ Reference.libsvm default_params
              (Some {| Reference.probability_capable := true;
               Reference.human_score := zero;
               Reference.label := D.of_Z 1 |})
              (Some {| scanned_bounds := [D.of_Z (-1); D.of_Z 1];
                       scanned_rows := [(2, D.of_Z 0, D.of_Z 5);
                                        (2, D.of_Z 1, D.of_Z 7)] |})
              Reference.zero_memory) as [_ Hnew].
  eexists. split; [by vm_compute|].
  destruct (Hnew _ ltac:(by vm_compute)) as (_ & _ & _ & Hrange).
  rewrite (Hrange _ ltac:(by vm_compute) eq_refl 1%nat). by vm_compute.
Defined.

(** ** The groups tile the engine's output *)

Lemma outoff_succ (indexEC : nat -> nat) (i : nat) :
  outoff indexEC (S (S i)) = (outoff indexEC (S i) + indexEC (S i))%nat.
Proof.
  unfold outoff. replace (S (S i) - 1)%nat with (S i) by lia.
  replace (S i - 1)%nat with i by lia.
  by rewrite seq_S, fold_left_app.
Qed.

Lemma cluster_points_shift (outputEC : nat -> float) (indexEC : nat -> nat) i :
  cluster_points outputEC indexEC i
  = output_point outputEC <$> seq (outoff indexEC i) (indexEC i).
Proof.
  unfold cluster_points.
  assert (seq (outoff indexEC i) (indexEC i)
          = Nat.add (outoff indexEC i) <$> seq 0 (indexEC i)) as ->
    by (by rewrite fmap_add_seq, Nat.add_0_r).
  by rewrite <- list_fmap_compose.
Qed.

(** X10.  The offset of the first group is 0 and the offset of each later
    group is the previous offset plus the previous group's size, so the
    groups 1..n, read one after the other, are exactly the first
    [indexEC[1] + ... + indexEC[n]] points of the output buffer, in buffer
    order: no cell is skipped and none is read twice. *)
Theorem groups_tile_output (outputEC : nat -> float) (indexEC : nat -> nat)
    (n : nat) :
  outoff indexEC 1 = 0%nat /\
  (forall i, outoff indexEC (S (S i))
             = (outoff indexEC (S i) + indexEC (S i))%nat) /\
  concat (cluster_points outputEC indexEC <$> seq 1 n)
  = output_point outputEC <$> seq 0 (outoff indexEC (S n)).
Proof.
  split; [done|]. split; [apply outoff_succ|].
  induction n as [|n IH]; [done|].
  rewrite seq_S, fmap_app, concat_app, IH, outoff_succ.
  cbn [fmap list_fmap concat]. rewrite app_nil_r, cluster_points_shift.
  by rewrite seq_app, fmap_app.
Qed.

(** ** Frames too small to cluster *)

Section SmallFrames.
Context {svm_model : Type} `{!Pcl, !CudaCluster, !Libsvm svm_model}.
Implicit Types (this : Object3dDetector svm_model).

Lemma cluster_regions_below_gate this f pc regions :
  Forall (fun indices =>
            Z.of_nat (length indices) <= to_size_t (cluster_size_min_ this))
         regions ->
  forall i tolerance features_,
  cluster_regions this f pc regions i tolerance features_
  = ([], Some features_).
Proof.
  induction 1 as [|indices regions Hlen _ IH]; intros i tolerance features_;
    cbn [cluster_regions]; [done|].
  destruct (Z.gtb_spec (Z.of_nat (length indices))
              (to_size_t (cluster_size_min_ this))); [lia|].
  apply IH.
Qed.

Lemma positions_in_band_length pts : forall i b,
  (length (positions_in_band pts i b) <= length pts)%nat.
Proof.
  induction pts as [|p pts IH]; intros i b; cbn [positions_in_band length];
    [done|].
  destruct (bool_decide _); cbn [length]; specialize (IH (S i) b); lia.
Qed.

Lemma divide_regions_sizes pc :
  Forall (fun indices => (length indices <= length pc)%nat)
         (divide_regions pc).
Proof.
  apply Forall_lookup. intros b indices Hb.
  assert (b < nested_regions_)%nat as Hlt.
  { rewrite <- (divide_regions_length pc). by eapply lookup_lt_Some. }
  unfold divide_regions in Hb.
  rewrite (divide_from_lookup pc 0 _ b [])
    in Hb by (by rewrite ?length_replicate, ?lookup_replicate).
  injection Hb as <-. apply positions_in_band_length.
Qed.
End SmallFrames.

(** X11.  For [cluster_size_min] in the range of [int]: a frame with at
    most [cluster_size_min] points, and ANY frame of fewer than 2^32 points
    when [cluster_size_min] is negative (the size comparison is made in
    [size_t]), never reaches the clustering engine: the feature list is
    empty and nothing is published. *)
Theorem small_frames_publish_nothing {svm_model : Type}
    `{!Pcl, !CudaCluster, !Libsvm svm_model}
    (this : Object3dDetector svm_model) (f : Feature.t) (pc : PointCloud) :
  (0 <= cluster_size_min_ this < 2 ^ 31 /\
   Z.of_nat (length pc) <= cluster_size_min_ this) \/
  (- 2 ^ 31 <= cluster_size_min_ this < 0 /\ Z.of_nat (length pc) < 2 ^ 32) ->
  extractCluster this f pc = ([], Some []) /\
  pointCloudCallback this f pc = Some silent.
Proof.
  intros Hsmall.
  assert (extractCluster this f pc = ([], Some [])) as Hrun.
  { unfold extractCluster. apply cluster_regions_below_gate.
    eapply Forall_impl; [apply divide_regions_sizes|].
    intros indices Hlen. cbn beta in *.
    pose proof (length_filter
      (fun p => in_z_band (z_limit_min_ this) (z_limit_max_ this) p = true) pc)
      as Hfilter.
    unfold remove_ground_ceiling in Hlen. unfold to_size_t.
    destruct Hsmall as [[Hmin Hpc]|[[Hlo Hhi] Hpc]].
    - rewrite Z.mod_small by lia. lia.
    - replace (cluster_size_min_ this)
        with (cluster_size_min_ this + 2 ^ 64 + (-1) * 2 ^ 64) by lia.
      rewrite Z.mod_add by lia. rewrite Z.mod_small by lia. lia. }
  split; [exact Hrun|].
  unfold pointCloudCallback. by rewrite Hrun.
Qed.

Lemma small_frames_publish_nothing_witness :
  @pointCloudCallback _ Reference.pcl Reference.cuda Reference.libsvm
    (Reference.detector false false false zero) Reference.zero_feature
    [Reference.point_dm 50 0 0]
  = Some silent.
Proof.
  apply (@small_frames_publish_nothing _ Reference.pcl Reference.cuda
           Reference.libsvm (Reference.detector false false false zero)
           Reference.zero_feature [Reference.point_dm 50 0 0]).
  left. cbn. lia.
Defined.

(** ** The marker is the wireframe of the bounding box *)

(** X12.  The 24 marker points, read as the 12 segments of a LINE_LIST,
    are 12 edges of the bounding box - each joins two corners that differ
    on exactly one axis - and every edge of the box is among them, in one
    direction or the other; so each of the 12 edges is drawn exactly
    once. *)
Theorem box_lines_are_the_box_edges (min max : Vector4f) :
  exists es : list ((bool * bool * bool) * (bool * bool * bool)),
    segments (box_lines min max)
    = (fun e => (corner min max e.1, corner min max e.2)) <$> es /\
    length es = 12%nat /\
    Forall (fun e => is_edge e.1 e.2 = true) es /\
    forall a b, is_edge a b = true -> (a, b) ∈ es \/ (b, a) ∈ es.
Proof.
  exists [ ((true, true, true), (false, true, true));
           ((true, true, true), (true, false, true));
           ((true, true, true), (true, true, false));
           ((false, false, false), (true, false, false));
           ((false, false, false), (false, true, false));
           ((false, false, false), (false, false, true));
           ((false, true, true), (false, true, false));
           ((false, true, true), (false, false, true));
           ((true, false, true), (true, false, false));
           ((true, false, true), (false, false, true));
           ((true, true, false), (false, true, false));
           ((true, true, false), (true, false, false)) ].
  split; [reflexivity|]. split; [reflexivity|]. split.
  - repeat constructor.
  - intros [[[] []] []] [[[] []] []]; cbn [is_edge fst snd xorb];
      try discriminate; intros _;
      first [ left; apply list_elem_of_In; cbn [In];
              solve [repeat (first [left; reflexivity | right])]
            | right; apply list_elem_of_In; cbn [In];
              solve [repeat (first [left; reflexivity | right])] ].
Qed.

Lemma box_lines_are_the_box_edges_witness :
  exists es : list ((bool * bool * bool) * (bool * bool * bool)),
    segments (box_lines Vector4f_zero Vector4f_zero)
    = (fun e => (corner Vector4f_zero Vector4f_zero e.1,
                 corner Vector4f_zero Vector4f_zero e.2)) <$> es /\
    (((true, true, true), (true, true, false)) ∈ es \/
     ((true, true, false), (true, true, true)) ∈ es).
Proof.
  destruct (box_lines_are_the_box_edges Vector4f_zero Vector4f_zero)
    as (es & Hseg & _ & _ & Hall).
  exists es. split; [exact Hseg|]. by apply Hall.
Defined.

(** ** The frame-rate counter *)

Section FrameRate.
Lemma fps_run_app print_fps_ (l1 l2 : list Z) s :
  fps_run print_fps_ (l1 ++ l2) s
  = let r1 := fps_run print_fps_ l1 s in
    let r2 := fps_run print_fps_ l2 r1.1 in
    (r2.1, r1.2 ++ r2.2).
Proof.
  revert s. induction l1 as [|c l1 IH]; intros s; cbn [app fps_run].
  - cbv zeta. cbn [fst snd app]. by destruct (fps_run print_fps_ l2 s).
  - destruct (fps_leave _ _) as [s' p]. rewrite IH. cbv zeta.
    destruct (fps_run print_fps_ l1 s') as [s1 p1]. cbn [fst snd].
    by destruct (fps_run print_fps_ l2 s1).
Qed.

Lemma fps_run_closed_form (clocks : list Z) :
  fps_run true clocks fps_initial
  = (counter_after clocks, printed_at <$> seq 0 (length clocks)).
Proof.
  induction clocks as [|c l IH] using rev_ind; [done|].
  rewrite fps_run_app, IH. cbv zeta. cbn [fst snd fps_run].
  unfold counter_after.
  rewrite length_app, Nat.add_1_r, seq_S, fmap_app, Nat.add_0_l.
  cbn [fmap list_fmap].
  assert (forall n, printed_at n
                    = if bool_decide (n mod 11 = 10)%nat then Some 11 else None)
    as ->.
  { intros n. unfold printed_at.
    pose proof (Nat.div_mod_eq n 11). pose proof (Nat.div_mod_eq (n + 1) 11).
    pose proof (Nat.mod_upper_bound n 11 ltac:(lia)).
    pose proof (Nat.mod_upper_bound (n + 1) 11 ltac:(lia)).
    destruct (decide (n mod 11 = 10)%nat).
    - by rewrite !bool_decide_eq_true_2 by lia.
    - by rewrite !bool_decide_eq_false_2 by lia. }
  destruct (length l) as [|m] eqn:Hlen.
  { apply nil_length_inv in Hlen as ->. done. }
  unfold fps_enter, fps_leave. cbn [reset frames start_time andb].
  assert (l !! (11 * (m / 11))%nat = (l ++ [c]) !! (11 * (m / 11))%nat)
    as Hstart.
  { rewrite lookup_app_l; [done|]. rewrite Hlen.
    pose proof (Nat.div_mod_eq m 11). lia. }
  pose proof (Nat.div_mod_eq m 11) as Hm.
  pose proof (Nat.div_mod_eq (S m) 11) as HSm.
  pose proof (Nat.mod_upper_bound m 11 ltac:(lia)) as Hr.
  pose proof (Nat.mod_upper_bound (S m) 11 ltac:(lia)) as HSr.
  destruct (decide (m mod 11 = 10)%nat) as [Hten|Hten].
  - rewrite (bool_decide_eq_true_2 (m mod 11 = 10)%nat) by done.
    cbn [reset frames start_time].
    assert (S m mod 11 = 0 /\ S m / 11 = S (m / 11))%nat as [Hr' Hq'] by lia.
    rewrite Hr', Hq'.
    assert (11 * S (m / 11) = length l)%nat as -> by lia.
    rewrite lookup_app_r, Nat.sub_diag by lia.
    rewrite !bool_decide_eq_false_2 by lia. done.
  - rewrite (bool_decide_eq_false_2 (m mod 11 = 10)%nat) by done.
    cbn [reset frames start_time].
    assert (S m mod 11 = S (m mod 11) /\ S m / 11 = m / 11)%nat
      as [Hr' Hq'] by lia.
    rewrite Hr', Hq', <- Hstart.
    destruct (decide (m mod 11 = 9)%nat) as [Hnine|Hnine].
    + rewrite Hnine. cbn [Z.gtb Z.compare Z.of_nat Z.add Pos.of_succ_nat].
      rewrite !bool_decide_eq_true_2 by lia. done.
    + destruct (Z.gtb_spec (Z.of_nat (S (m mod 11)) + 1) 10); [lia|].
      rewrite !bool_decide_eq_false_2 by lia.
      cbn [fst snd]. do 3 f_equal. lia.
Qed.

Lemma fps_run_disabled (clocks : list Z) : forall s,
  fps_run false clocks s = (s, replicate (length clocks) None).
Proof.
  induction clocks as [|c l IH]; intros s; cbn [fps_run]; [done|].
  unfold fps_enter, fps_leave. cbn [andb]. by rewrite IH.
Qed.
End FrameRate.

(** X13.  With [print_fps] set, the rate is printed on the 11th, 22nd,
    33rd, ... callback and on no other, each time over 11 frames; after
    the n-th callback the counter holds ((n - 1) mod 11) + 1, so it never
    exceeds 11, and the start time is the clock reading taken by the
    first callback of the current group of eleven.  With [print_fps]
    clear the globals are never touched and nothing is printed. *)
Theorem fps_counter (clocks : list Z) (s0 : fps_state) :
  (fps_run true clocks fps_initial).2
  = printed_at <$> seq 0 (length clocks) /\
  (fps_run true clocks fps_initial).1 = counter_after clocks /\
  0 <= frames (counter_after clocks) <= 11 /\
  fps_run false clocks s0 = (s0, replicate (length clocks) None).
Proof.
  rewrite fps_run_closed_form. cbn [fst snd].
  split; [done|]. split; [done|]. split; [|apply fps_run_disabled].
  unfold counter_after. destruct (length clocks) as [|m]; cbn [frames]; [done|].
  pose proof (Nat.mod_upper_bound m 11). lia.
Qed.

(** ** The inertia tensor *)

Section InertiaTensor.
Lemma squares_not_negative (acc a b : float) :
  not_negative acc = true ->
  not_negative (F.add acc (F.add (F.mul a a) (F.mul b b))) = true.
Proof.
  intros Hacc. apply add_not_negative; [exact Hacc|].
  apply add_not_negative; apply mul_self_not_negative.
Qed.

Lemma inertia_diagonal (pc : PointCloud) : forall m,
  not_negative (m00 m) = true -> not_negative (m11 m) = true ->
  not_negative (m22 m) = true ->
  not_negative (m00 (fold_left inertia_step pc m)) = true /\
  not_negative (m11 (fold_left inertia_step pc m)) = true /\
  not_negative (m22 (fold_left inertia_step pc m)) = true.
Proof.
  induction pc as [|p pc IH]; intros m H0 H1 H2; cbn [fold_left]; [done|].
  apply IH; unfold inertia_step; cbn [m00 m11 m22]; by apply squares_not_negative.
Qed.

Lemma inertia_fold (pc : PointCloud) :
  let acc := fold_left inertia_step pc Matrix3f_zero in
  computeMomentOfInertiaTensorNormalized pc
  = {| m00 := m00 acc; m01 := m01 acc; m02 := m02 acc;
       m10 := m01 acc; m11 := m11 acc; m12 := m12 acc;
       m20 := m02 acc; m21 := m12 acc; m22 := m22 acc |}.
Proof. reflexivity. Qed.
End InertiaTensor.

Lemma not_negative_lt_zero (v : spec_float) :
  not_negative v = true -> lt v zero = false.
Proof. by destruct v as [[]|[]| |[] m e]. Qed.

(** X14.  The inertia tensor is symmetric and, whatever the rounding and
    even on overflow, no entry of its diagonal is below zero; for the
    empty cloud it is the zero matrix. *)
Theorem inertia_tensor_shape (pc : PointCloud) :
  let m := computeMomentOfInertiaTensorNormalized pc in
  (m10 m = m01 m /\ m20 m = m02 m /\ m21 m = m12 m) /\
  (lt (m00 m) zero = false /\ lt (m11 m) zero = false /\
   lt (m22 m) zero = false) /\
  computeMomentOfInertiaTensorNormalized [] = Matrix3f_zero.
Proof.
  cbv zeta. rewrite inertia_fold. cbv zeta. cbn [m00 m01 m02 m10 m11 m12 m20 m21 m22].
  split; [done|]. split; [|done].
  destruct (inertia_diagonal pc Matrix3f_zero) as (H0 & H1 & H2); try done.
  repeat split; by apply not_negative_lt_zero.
Qed.

(** ** Features and surviving groups, with any model *)

Section RunFeatures.
Context {svm_model : Type} `{!Pcl, !CudaCluster}.
Implicit Types (this : Object3dDetector svm_model).

Lemma process_cluster_extract this f cluster :
  process_cluster this f cluster
  = if passes_size_limit this cluster
    then Some (extract_one this f cluster) else None.
Proof.
  unfold process_cluster, passes_size_limit, extract_one.
  destruct (getMinMax3D cluster) as [mn mx]. cbn [fst snd].
  by destruct (human_size_limit_ this && size_limit_exceeded mn mx).
Qed.

Lemma mapM_app_Some {A B} (g : A -> option B) l1 l2 :
  mapM g (l1 ++ l2)
  = k1 ← mapM g l1; k2 ← mapM g l2; Some (k1 ++ k2).
Proof.
  induction l1 as [|a l1 IH]; cbn [app mapM].
  - cbn. by destruct (mapM g l2).
  - cbn. destruct (g a); [|done]. cbn. rewrite IH.
    destruct (mapM g l1); [|done]. cbn. by destruct (mapM g l2).
Qed.

Lemma collect_clusters_extract this f outputEC indexEC groups :
  forall features_,
  collect_clusters this f outputEC indexEC groups features_
  = k ← mapM (extract_one this f)
        (List.filter (passes_size_limit this)
           (cluster_points outputEC indexEC <$> groups));
    Some (features_ ++ k).
Proof.
  induction groups as [|i groups IH]; intros features_;
    cbn [collect_clusters fmap list_fmap List.filter].
  - cbn. by rewrite app_nil_r.
  - rewrite process_cluster_extract.
    destruct (passes_size_limit this _); [|apply IH].
    cbn [mapM]. cbn. destruct (extract_one this f _) as [it|]; [|done].
    cbn. rewrite IH. destruct (mapM _ _); [|done]. cbn.
    by rewrite <- app_assoc.
Qed.

Lemma cluster_regions_extract this f pc regions :
  forall i tolerance features_,
  (cluster_regions this f pc regions i tolerance features_).2
  = k ← mapM (extract_one this f)
        (surviving_clusters this
           (cluster_regions this f pc regions i tolerance features_).1);
    Some (features_ ++ k).
Proof.
  induction regions as [|indices regions IH]; intros i tolerance features_;
    cbn [cluster_regions].
  - cbn. by rewrite app_nil_r.
  - destruct (Z.of_nat (length indices) >? to_size_t (cluster_size_min_ this));
      [|apply IH].
    destruct (cudaec_extract _ _) as [outputEC indexEC] eqn:Hengine.
    rewrite collect_clusters_extract.
    destruct (mapM (extract_one this f)
                (List.filter (passes_size_limit this)
                   (cluster_points outputEC indexEC <$> seq 1 (indexEC 0%nat))))
      as [k1|] eqn:Hk1; cbn [mbind option_bind].
    + specialize (IH (S i) (D.add tolerance (D.literal 1 1)) (features_ ++ k1)).
      destruct (cluster_regions this f pc regions (S i) _ (features_ ++ k1))
        as [calls r]. cbn [fst snd] in *.
      rewrite surviving_clusters_cons, Hengine, mapM_app_Some.
      unfold groups_of. cbn [fst snd]. rewrite Hk1, IH.
      cbn [mbind option_bind].
      destruct (mapM _ (surviving_clusters this calls)); [|done].
      cbn. by rewrite app_assoc.
    + cbn [fst snd]. rewrite surviving_clusters_cons, Hengine, mapM_app_Some.
      unfold groups_of. cbn [fst snd]. by rewrite Hk1.
Qed.

Lemma extract_one_fields this f cluster it :
  extract_one this f cluster = Some it ->
  Feature.centroid it = compute3DCentroid cluster /\
  Feature.min it = (getMinMax3D cluster).1 /\
  Feature.max it = (getMinMax3D cluster).2 /\
  (use_svm_model_ this = true -> describes it cluster).
Proof.
  unfold extract_one, extractFeature, describes.
  destruct (use_svm_model_ this).
  - destruct (computeSlice cluster 10) as [slice|]; [|done].
    intros [= <-]. cbn. by repeat split.
  - intros [= <-]. cbn. by repeat split.
Qed.
End RunFeatures.

(** X15.  With or without a model, the features of a frame are the
    outcomes of [extractFeature] on the groups that survive the size
    limitation, one per group and in processing order, and the run is
    undefined exactly when one of these extractions is.  Every feature
    carries the centroid and the bounding box of its group; with a model
    it also carries the group's point count, minimum squared distance,
    covariance and inertia tensor of the projected group, and slice
    values. *)
Theorem features_of_surviving_clusters {svm_model : Type}
    `{!Pcl, !CudaCluster}
    (this : Object3dDetector svm_model) (f : Feature.t) (pc : PointCloud) :
  let run := extractCluster this f pc in
  run.2 = mapM (extract_one this f) (surviving_clusters this run.1) /\
  forall features_, run.2 = Some features_ ->
    Forall2 (fun it cluster =>
               Feature.centroid it = compute3DCentroid cluster /\
               Feature.min it = (getMinMax3D cluster).1 /\
               Feature.max it = (getMinMax3D cluster).2 /\
               (use_svm_model_ this = true -> describes it cluster))
            features_ (surviving_clusters this run.1).
Proof.
  cbv zeta.
  assert ((extractCluster this f pc).2
          = mapM (extract_one this f)
              (surviving_clusters this (extractCluster this f pc).1)) as Hrun.
  { unfold extractCluster. rewrite cluster_regions_extract.
    by destruct (mapM _ _). }
  split; [exact Hrun|]. intros features_ Hdef. rewrite Hdef in Hrun.
  symmetry in Hrun. apply mapM_Some_1 in Hrun.
  apply Forall2_flip. eapply Forall2_impl; [exact Hrun|].
  intros cluster it. apply extract_one_fields.
Qed.

Lemma features_of_surviving_clusters_witness :
  exists it,
    (@extractCluster _ Reference.pcl Reference.cuda
       (Reference.detector true true false zero) Reference.zero_feature
       Reference.person).2 = Some [it] /\
    Feature.number_points it = 3.
Proof.
  destruct (@features_of_surviving_clusters _ Reference.pcl Reference.cuda
              (Reference.detector true true false zero) Reference.zero_feature
              Reference.person) as [_ Hfields].
  eexists. split; [by vm_compute|].
  specialize (Hfields _ ltac:(by vm_compute)).
  assert (@surviving_clusters _ Reference.pcl Reference.cuda
            (Reference.detector true true false zero)
            (@extractCluster _ Reference.pcl Reference.cuda
               (Reference.detector true true false zero)
               Reference.zero_feature Reference.person).1
          = [[Reference.point_dm 50 0 (-5); Reference.point_dm 52 2 3;
              Reference.point_dm 51 1 8]]) as Hs by (by vm_compute).
  rewrite Hs in Hfields.
  apply Forall2_cons_1 in Hfields as [(_ & _ & _ & Hd) _].
  destruct (Hd eq_refl) as [Hn _]. exact Hn.
Defined.

(** ** The uninitialised feature record *)

Section Uninitialised.
Context {svm_model : Type} `{!Pcl, !CudaCluster, !Libsvm svm_model}.
Implicit Types (this : Object3dDetector svm_model).

Lemma extract_one_with_model this f f' cluster :
  use_svm_model_ this = true ->
  extract_one this f cluster = extract_one this f' cluster.
Proof.
  intros Huse. unfold extract_one, extractFeature. by rewrite Huse.
Qed.

Lemma cluster_regions_with_model this f f' pc regions :
  use_svm_model_ this = true ->
  forall i tolerance features_,
  cluster_regions this f pc regions i tolerance features_
  = cluster_regions this f' pc regions i tolerance features_.
Proof.
  intros Huse.
  induction regions as [|indices regions IH]; intros i tolerance features_;
    cbn [cluster_regions]; [done|].
  destruct (Z.of_nat (length indices) >? to_size_t (cluster_size_min_ this));
    [|apply IH].
  destruct (cudaec_extract _ _) as [outputEC indexEC].
  rewrite !collect_clusters_extract.
  rewrite (mapM_ext _ (extract_one this f') _
             (fun c => extract_one_with_model this f f' c Huse)).
  destruct (mapM _ _); cbn [mbind option_bind]; [|done]. by rewrite IH.
Qed.

Lemma cluster_regions_calls_model_free this f f' pc regions :
  use_svm_model_ this = false ->
  forall i tolerance features_ features_',
  (cluster_regions this f pc regions i tolerance features_).1
  = (cluster_regions this f' pc regions i tolerance features_').1.
Proof.
  intros Hfree.
  induction regions as [|indices regions IH];
    intros i tolerance features_ features_'; cbn [cluster_regions]; [done|].
  destruct (Z.of_nat (length indices) >? to_size_t (cluster_size_min_ this));
    [|apply IH].
  destruct (cudaec_extract _ _) as [outputEC indexEC].
  rewrite !collect_clusters_model_free by done.
  match goal with
  | |- (let '(_, _) := cluster_regions _ _ _ _ _ _ ?a in _).1
       = (let '(_, _) := cluster_regions _ _ _ _ _ _ ?b in _).1 =>
      specialize (IH (S i) (D.add tolerance (D.literal 1 1)) a b);
      destruct (cluster_regions this f pc regions (S i) _ a);
      destruct (cluster_regions this f' pc regions (S i) _ b)
  end.
  cbn [fst] in *. by rewrite IH.
Qed.

Lemma classify_from_model_free_feature this f f' clusters :
  use_svm_model_ this = false ->
  forall k out,
  classify_from this (model_free_feature f <$> clusters) k out
  = classify_from this (model_free_feature f' <$> clusters) k out.
Proof.
  intros Hfree.
  induction clusters as [|c clusters IH]; intros k out;
    cbn [fmap list_fmap classify_from]; [done|].
  rewrite !accepts_model_free by done. cbn [mbind option_bind].
  apply IH.
Qed.
End Uninitialised.

(** X16.  The local [Feature f], which [extractCluster] never
    initialises, has no influence on what a frame does: whatever it
    holds, the engine is called with the same parameters and inputs and
    the same messages are published; with a model the extracted features
    themselves do not depend on it either. *)
Theorem uninitialised_feature_is_never_observed {svm_model : Type}
    `{!Pcl, !CudaCluster, !Libsvm svm_model}
    (this : Object3dDetector svm_model) (f f' : Feature.t) (pc : PointCloud) :
  (extractCluster this f pc).1 = (extractCluster this f' pc).1 /\
  pointCloudCallback this f pc = pointCloudCallback this f' pc /\
  (use_svm_model_ this = true ->
   extractCluster this f pc = extractCluster this f' pc).
Proof.
  destruct (use_svm_model_ this) eqn:Huse.
  - assert (extractCluster this f pc = extractCluster this f' pc) as Hrun
      by (by apply cluster_regions_with_model).
    unfold pointCloudCallback. by rewrite Hrun.
  - assert ((extractCluster this f pc).1 = (extractCluster this f' pc).1)
      as Hcalls by (by apply cluster_regions_calls_model_free).
    split; [exact Hcalls|]. split; [|done].
    unfold pointCloudCallback, extractCluster in *.
    rewrite !cluster_regions_model_free by done. rewrite Hcalls.
    cbn [mbind option_bind app]. unfold classify.
    by rewrite (classify_from_model_free_feature this f f').
Qed.

Lemma uninitialised_feature_is_never_observed_witness :
  @extractCluster _ Reference.pcl Reference.cuda
    (Reference.detector true true false zero) Reference.zero_feature
    Reference.person
  = @extractCluster _ Reference.pcl Reference.cuda
      (Reference.detector true true false zero)
      (with_visualization Reference.zero_feature Vector4f_zero Vector4f_zero
         {| v0 := FLT_MAX; v1 := zero; v2 := zero; v3 := zero |})
      Reference.person.
Proof.
  apply (@uninitialised_feature_is_never_observed _ Reference.pcl
           Reference.cuda Reference.libsvm
           (Reference.detector true true false zero)).
  reflexivity.
Defined.

(** ** A frame from end to end *)

Section EndToEnd.
Context {svm_model : Type} `{!Pcl, !CudaCluster, !Libsvm svm_model}.
Implicit Types (this : Object3dDetector svm_model).

Lemma published_entries {A} (l : list A) : default [] (published l) = l.
Proof. by destruct l. Qed.

Lemma features_match_clusters this f pc features_ :
  (extractCluster this f pc).2 = Some features_ ->
  Forall2 (fun it cluster =>
             Feature.centroid it = compute3DCentroid cluster /\
             Feature.min it = (getMinMax3D cluster).1 /\
             Feature.max it = (getMinMax3D cluster).2)
          features_ (surviving_clusters this (extractCluster this f pc).1).
Proof.
  unfold extractCluster. rewrite cluster_regions_extract.
  destruct (mapM _ _) as [k|] eqn:Hk; [|done]. intros [= <-].
  apply mapM_Some_1 in Hk. apply Forall2_flip.
  eapply Forall2_impl; [exact Hk|].
  intros cluster it Hit. cbn beta.
  apply extract_one_fields in Hit as (? & ? & ? & _). done.
Qed.
End EndToEnd.

(** X17.  Whatever the model decides, a frame publishes nothing that is
    not a group surviving the size limitation: every published person
    and measurement is the centroid of such a group, every marker is the
    box of the group whose position among the surviving groups is the
    marker's id, and there are never more people than surviving
    groups. *)
Theorem published_people_are_surviving_clusters {svm_model : Type}
    `{!Pcl, !CudaCluster, !Libsvm svm_model}
    (this : Object3dDetector svm_model) (f : Feature.t) (pc : PointCloud)
    (pubs : Publications) :
  pointCloudCallback this f pc = Some pubs ->
  let clusters := surviving_clusters this (extractCluster this f pc).1 in
  (forall pos, pos ∈ default [] (people_pub_ pubs) \/
               pos ∈ default [] (measurements_pub_ pubs) ->
     exists cluster, cluster ∈ clusters /\
       pos = position (compute3DCentroid cluster)) /\
  (forall m, m ∈ default [] (marker_array_pub_ pubs) ->
     exists j cluster, clusters !! j = Some cluster /\
       marker_id m = Z.of_nat j /\
       marker_points m
       = box_lines (getMinMax3D cluster).1 (getMinMax3D cluster).2) /\
  (length (default [] (people_pub_ pubs)) <= length clusters)%nat.
Proof.
  unfold pointCloudCallback.
  destruct (extractCluster this f pc).2 as [features_|] eqn:Hrun; [|done].
  cbn [mbind option_bind]. intros (Hm & Hp & Hq)%classify_published.
  apply features_match_clusters in Hrun. cbv zeta.
  rewrite Hq, Hm, Hp, !published_entries.
  assert (forall j it, (j, it) ∈ accepted_features this 0 features_ ->
            exists cluster,
              surviving_clusters this (extractCluster this f pc).1 !! j
              = Some cluster /\
              Feature.centroid it = compute3DCentroid cluster /\
              Feature.min it = (getMinMax3D cluster).1 /\
              Feature.max it = (getMinMax3D cluster).2) as Hacc.
  { intros j it [Hj _]%accepted_features_lookup.
    destruct (Forall2_lookup_l _ _ _ _ _ Hrun Hj) as (cluster & Hc & Hfields).
    by exists cluster. }
  split; [|split].
  - intros pos Hpos. assert (pos ∈ (fun e : nat * Feature.t =>
      position (Feature.centroid e.2)) <$> accepted_features this 0 features_)
      as Hin by (by destruct Hpos).
    apply list_elem_of_fmap in Hin as ([j it] & -> & Hin).
    apply Hacc in Hin as (cluster & Hc & Hcen & _). exists cluster.
    split; [by eapply list_elem_of_lookup_2|]. cbn [snd]. by rewrite Hcen.
  - intros m Hin. apply list_elem_of_fmap in Hin as ([j it] & -> & Hin).
    apply Hacc in Hin as (cluster & Hc & _ & Hmin & Hmax).
    exists j, cluster. cbn [fst snd marker_of marker_id marker_points].
    by rewrite Hmin, Hmax.
  - rewrite length_fmap, <- (Forall2_length _ _ _ Hrun).
    apply accepted_features_length.
Qed.

Lemma published_people_are_surviving_clusters_witness :
  exists pubs,
    @pointCloudCallback _ Reference.pcl Reference.cuda Reference.libsvm
      (Reference.detector true true false (D.literal 9 1))
      Reference.zero_feature Reference.person = Some pubs /\
    (length (default [] (people_pub_ pubs)) <= 1)%nat.
Proof.
  eexists. split; [by vm_compute|].
  destruct (@published_people_are_surviving_clusters _ Reference.pcl
              Reference.cuda Reference.libsvm
              (Reference.detector true true false (D.literal 9 1))
              Reference.zero_feature Reference.person _
              ltac:(by vm_compute)) as (_ & _ & Hlen).
  exact Hlen.
Defined.

(** ** Limits that exclude every point *)

Lemma remove_ground_ceiling_empty (z_limit_min_ z_limit_max_ : double)
    (pc : PointCloud) :
  le z_limit_min_ z_limit_max_ = false ->
  remove_ground_ceiling z_limit_min_ z_limit_max_ pc = [].
Proof.
  intros Hlimits. unfold remove_ground_ceiling.
  induction pc as [|p pc IH]; [done|].
  rewrite filter_cons, IH.
  destruct (decide (in_z_band z_limit_min_ z_limit_max_ p = true))
    as [Hin|]; [|done].
  unfold in_z_band, ge in Hin. apply andb_true_iff in Hin as [Hlo Hhi].
  by rewrite (le_trans _ _ _ Hlo Hhi) in Hlimits.
Qed.

Lemma extractCluster_empty {svm_model : Type} `{!Pcl, !CudaCluster}
    (this : Object3dDetector svm_model) (f : Feature.t) (pc : PointCloud) :
  remove_ground_ceiling (z_limit_min_ this) (z_limit_max_ this) pc = [] ->
  extractCluster this f pc = ([], Some []).
Proof.
  intros Hempty. unfold extractCluster. rewrite Hempty.
  apply cluster_regions_below_gate.
  eapply Forall_impl; [apply (divide_regions_sizes [])|].
  intros indices Hlen. cbn in Hlen. unfold to_size_t.
  pose proof (Z.mod_pos_bound (cluster_size_min_ this) (2 ^ 64)). lia.
Qed.

(** X18.  When [z_limit_min] is not below or equal to [z_limit_max] - the
    limits are inverted, or one of them is NaN - the height filter drops
    every point of every frame, the clustering engine is never called
    and nothing is published; the same holds, with any limits, for a
    frame whose points all have a NaN height. *)
Theorem excluding_limits_publish_nothing {svm_model : Type}
    `{!Pcl, !CudaCluster, !Libsvm svm_model}
    (this : Object3dDetector svm_model) (f : Feature.t) (pc : PointCloud) :
  le (z_limit_min_ this) (z_limit_max_ this) = false \/
  Forall (fun p => is_nan (pt_z p) = true) pc ->
  remove_ground_ceiling (z_limit_min_ this) (z_limit_max_ this) pc = [] /\
  extractCluster this f pc = ([], Some []) /\
  pointCloudCallback this f pc = Some silent.
Proof.
  intros Hcase.
  assert (remove_ground_ceiling (z_limit_min_ this) (z_limit_max_ this) pc = [])
    as Hempty.
  { destruct Hcase as [Hlimits|Hnan];
      [by apply remove_ground_ceiling_empty|].
    unfold remove_ground_ceiling.
    induction Hnan as [|p pc Hp _ IH]; [done|].
    rewrite filter_cons, IH.
    destruct (decide (in_z_band _ _ p = true)) as [Hin|]; [|done].
    unfold in_z_band in Hin. apply andb_true_iff in Hin as [_ Hhi].
    destruct (pt_z p); done. }
  split; [exact Hempty|].
  pose proof (extractCluster_empty this f pc Hempty) as Hrun.
  split; [exact Hrun|]. unfold pointCloudCallback. by rewrite Hrun.
Qed.

Lemma excluding_limits_publish_nothing_witness :
  @pointCloudCallback _ Reference.pcl Reference.cuda Reference.libsvm
    (Reference.detector false false false zero) Reference.zero_feature
    [{| pt_x := F.of_Z 5; pt_y := zero; pt_z := S754_nan |}]
  = Some silent.
Proof.
  apply (@excluding_limits_publish_nothing _ Reference.pcl Reference.cuda
           Reference.libsvm (Reference.detector false false false zero)
           Reference.zero_feature
           [{| pt_x := F.of_Z 5; pt_y := zero; pt_z := S754_nan |}]).
  right. by repeat constructor.
Defined.

(** ** The probability test at its edges *)

Lemma lt_nan_false (a b : spec_float) :
  is_nan a = true \/ is_nan b = true -> lt a b = false.
Proof.
  intros [Ha|Hb]; [by destruct a|].
  destruct b; try discriminate. by destruct a as [[]|[]| |[] m e].
Qed.

(** X19.  With a loaded probability model, the decision is undefined
    exactly when libsvm returns no estimate at all (reading
    [prob_estimates[0]] leaves the array); and when the first estimate or
    the threshold [human_probability] is NaN the feature is ACCEPTED,
    because the only test made is [estimate < threshold]. *)
Theorem probability_edge_cases {svm_model : Type} `{!Libsvm svm_model}
    (this : Object3dDetector svm_model) (model : svm_model) (it : Feature.t) :
  use_svm_model_ this = true ->
  svm_model_ this = Some model ->
  is_probability_model_ this = true ->
  let estimates :=
    svm_predict_probability model
      (node_array (scale_data this (saveFeature it (svm_node_ this)))) in
  (accepts this it = None <-> estimates = []) /\
  (forall p, estimates !! 0%nat = Some p ->
     is_nan p = true \/ is_nan (human_probability_ this) = true ->
     accepts this it = Some true).
Proof.
  intros Huse Hmodel Hprob estimates.
  assert (accepts this it
          = p ← estimates !! 0%nat;
            Some (negb (lt p (human_probability_ this)))) as ->.
  { unfold accepts. rewrite Huse, Hmodel. cbn [mbind option_bind]. cbv zeta.
    by rewrite Hprob. }
  split.
  - destruct estimates as [|p rest]; cbn; [done|]. split; discriminate.
  - intros p -> Hnan. cbn [mbind option_bind].
    by rewrite (lt_nan_false _ _ Hnan).
Qed.

Lemma probability_edge_cases_witness :
  @accepts _ Reference.libsvm
    (Reference.detector true true false S754_nan) Reference.zero_feature
  = Some true.
Proof.
  destruct (@probability_edge_cases _ Reference.libsvm
              (Reference.detector true true false S754_nan)
              {| Reference.probability_capable := true;
                 Reference.human_score := S754_nan;
                 Reference.label := D.of_Z 1 |}
              Reference.zero_feature eq_refl eq_refl eq_refl) as [_ Hnan].
  apply (Hnan S754_nan); [reflexivity|by left].
Defined.
